(* Shallow embedding of astrbot_plugin_FastFoodDeals (main.py): the data
   sources, the brand grouping of the report routines, the theme lookup and
   the card loop of the poster renderer, the schedule-time parser and the
   delivery fan-out. *)

From Stdlib Require Import String Ascii ZArith QArith Bool Lia List.
Import ListNotations.
Open Scope Z_scope.

(** * Python strings

    A Python [str] is a sequence of code points; it is modelled as [list Z].
    Literals of the source are written as UTF-8 Rocq strings and decoded. *)

Definition pystr := list Z.

Fixpoint utf8_decode (l : list Z) : pystr :=
  match l with
  | [] => []
  | b :: r =>
    if b <? 128 then b :: utf8_decode r
    else if b <? 224 then
      match r with
      | c1 :: r1 => (Z.land b 31 * 64 + Z.land c1 63) :: utf8_decode r1
      | [] => []
      end
    else if b <? 240 then
      match r with
      | c1 :: c2 :: r2 =>
        (Z.land b 15 * 4096 + Z.land c1 63 * 64 + Z.land c2 63) :: utf8_decode r2
      | _ => []
      end
    else
      match r with
      | c1 :: c2 :: c3 :: r3 =>
        (Z.land b 7 * 262144 + Z.land c1 63 * 4096 + Z.land c2 63 * 64
         + Z.land c3 63) :: utf8_decode r3
      | _ => []
      end
  end.

Definition u (s : string) : pystr :=
  utf8_decode (map (fun a => Z.of_nat (nat_of_ascii a)) (list_ascii_of_string s)).

Definition pystr_eqb (a b : pystr) : bool :=
  if list_eq_dec Z.eq_dec a b then true else false.

(** [x in xs] for a list of strings. *)
Definition pystr_mem (x : pystr) (xs : list pystr) : bool :=
  existsb (pystr_eqb x) xs.

(** [str.isspace]: the characters [str.strip] and [int] skip. *)
Definition is_space (c : Z) : bool :=
  ((9 <=? c) && (c <=? 13)) || ((28 <=? c) && (c <=? 32)) || (c =? 133)
  || (c =? 160) || (c =? 5760) || ((8192 <=? c) && (c <=? 8202))
  || (c =? 8232) || (c =? 8233) || (c =? 8239) || (c =? 8287) || (c =? 12288).

Fixpoint lstrip (s : pystr) : pystr :=
  match s with
  | c :: r => if is_space c then lstrip r else s
  | [] => []
  end.

Definition rstrip (s : pystr) : pystr := rev (lstrip (rev s)).

(** [s.strip()] *)
Definition strip (s : pystr) : pystr := rstrip (lstrip s).


(** [a in b] for strings: substring test. *)
Fixpoint is_prefix (p s : pystr) : bool :=
  match p, s with
  | [], _ => true
  | c :: p', d :: s' => (c =? d) && is_prefix p' s'
  | _ :: _, [] => false
  end.

Fixpoint contains (s p : pystr) : bool :=
  is_prefix p s || match s with [] => false | _ :: s' => contains s' p end.

(** [s[:n]] *)
Definition slice_to (n : nat) (s : pystr) : pystr := firstn n s.

(** Truthiness of a string: [s or dflt]. *)
Definition str_or (s dflt : pystr) : pystr :=
  match s with [] => dflt | _ => s end.

(** * Deal records

    A deal is a dict; every key the code reads with [.get] may be absent
    ([None]).  Prices are numbers. *)

Record Deal := mkDeal {
  d_date : option pystr;
  d_brand : option pystr;
  d_title : option pystr;
  d_category : option pystr;
  d_price : option Q;
  d_origin_price : option Q;
  d_tag : option pystr;
  d_activity : option pystr;
  d_desc : option pystr;
  d_main_image_url : option pystr
}.

(** [d.get(key, dflt)] on a string field. *)
Definition get_or (o : option pystr) (dflt : pystr) : pystr :=
  match o with Some s => s | None => dflt end.

(** * Grouping by brand (cmd_fastfood_report, _run_daily_report) *)

Definition OTHER_BRAND : pystr := u "其他品牌".

(** [str(deal.get("brand", "其他品牌")).strip() or "其他品牌"] *)
Definition deal_brand_key (d : Deal) : pystr :=
  str_or (strip (get_or (d_brand d) OTHER_BRAND)) OTHER_BRAND.

(** The insertion-ordered dict [brand_map]. *)
Definition BrandMap := list (pystr * list Deal).

(** [brand_map.setdefault(k, []).append(d)] *)
Fixpoint setdefault_append (k : pystr) (d : Deal) (m : BrandMap) : BrandMap :=
  match m with
  | [] => [(k, [d])]
  | (k', ds) :: m' =>
    if pystr_eqb k k' then (k', ds ++ [d]) :: m'
    else (k', ds) :: setdefault_append k d m'
  end.

Definition build_brand_map (deals : list Deal) : BrandMap :=
  fold_left (fun m d => setdefault_append (deal_brand_key d) d m) deals [].

Definition map_keys (m : BrandMap) : list pystr := map fst m.

(** [brand_map.get(b)] *)
Fixpoint map_get (k : pystr) (m : BrandMap) : option (list Deal) :=
  match m with
  | [] => None
  | (k', ds) :: m' => if pystr_eqb k k' then Some ds else map_get k m'
  end.

(** The two loops building [ordered_brands]. *)
Definition order_brands (target_brands : list pystr) (m : BrandMap) : list pystr :=
  let ordered :=
    fold_left (fun acc b => if pystr_mem b (map_keys m) then acc ++ [b] else acc)
              target_brands [] in
  fold_left (fun acc b => if pystr_mem b acc then acc else acc ++ [b])
            (map_keys m) ordered.

(** The brand groups the poster loop visits, in order: for each [brand] of
    [ordered_brands], [brand_map.get(brand)], skipped when empty. *)
Fixpoint visit_groups (m : BrandMap) (brands : list pystr) : list (pystr * list Deal) :=
  match brands with
  | [] => []
  | b :: bs =>
    match map_get b m with
    | Some ((_ :: _) as ds) => (b, ds) :: visit_groups m bs
    | _ => visit_groups m bs
    end
  end.

Definition group_deals (target_brands : list pystr) (deals : list Deal) :
  list (pystr * list Deal) :=
  let m := build_brand_map deals in
  visit_groups m (order_brands target_brands m).

(** * Theme registry (THEME_CONFIG, DEFAULT_THEME) *)

Record ThemeCfg := mkTheme {
  header_color : pystr;
  header_subtitle_color : pystr;
  title_text : pystr;
  card_accent : pystr;
  card_placeholder_fill : pystr;
  card_placeholder_outline : pystr;
  badge_fill : pystr;
  badge_text_color : pystr;
  background_image_name : option pystr
}.

Definition CRAZY_THURSDAY : pystr := u "crazy_thursday".

Definition CRAZY_THURSDAY_THEME : ThemeCfg := {|
  header_color := u "#e4002b";
  header_subtitle_color := u "#ffd700";
  title_text := u "疯狂星期四 · 今日快餐菜单与活动早报";
  card_accent := u "#e4002b";
  card_placeholder_fill := u "#ffe6e6";
  card_placeholder_outline := u "#e4002b";
  badge_fill := u "#ffd700";
  badge_text_color := u "#5c3317";
  background_image_name := Some (u "crazy_thursday.png")
|}.

Definition THEME_CONFIG : list (pystr * ThemeCfg) :=
  [(CRAZY_THURSDAY, CRAZY_THURSDAY_THEME)].

Definition DEFAULT_THEME : ThemeCfg := {|
  header_color := u "#ff6b3b";
  header_subtitle_color := u "#ffe7d9";
  title_text := u "今日快餐菜单与活动早报";
  card_accent := u "#ff6b3b";
  card_placeholder_fill := u "#ffe9dd";
  card_placeholder_outline := u "#ffb89b";
  badge_fill := u "#ffdd55";
  badge_text_color := u "#7a4b00";
  background_image_name := None
|}.

(** [dict.get(k, dflt)] on an association list. *)
Fixpoint assoc_get {A} (k : pystr) (m : list (pystr * A)) (dflt : A) : A :=
  match m with
  | [] => dflt
  | (k', v) :: m' => if pystr_eqb k k' then v else assoc_get k m' dflt
  end.

(** [cfg = THEME_CONFIG.get(theme, DEFAULT_THEME) if theme else DEFAULT_THEME] *)
Definition resolve_theme (theme : option pystr) : ThemeCfg :=
  match theme with
  | Some ((_ :: _) as t) => assoc_get t THEME_CONFIG DEFAULT_THEME
  | _ => DEFAULT_THEME
  end.

(** * Schedule time (_parse_schedule_time) *)


(** Code points whose [str.isdecimal] value is 0: every decimal digit is
    [z + v] for one of these [z] and [0 <= v <= 9] (Unicode category Nd). *)
Definition DIGIT_ZEROS : list Z :=
  [48; 1632; 1776; 1984; 2406; 2534; 2662; 2790; 2918; 3046; 3174; 3302;
   3430; 3558; 3664; 3792; 3872; 4160; 4240; 6112; 6160; 6470; 6608; 6784;
   6800; 6992; 7088; 7232; 7248; 42528; 43216; 43264; 43472; 43504; 43600;
   44016; 65296; 66720; 68912; 69734; 69872; 69942; 70096; 70384; 70736;
   70864; 71248; 71360; 71472; 71904; 72016; 72784; 73040; 73120; 73552;
   92768; 92864; 93008; 120782; 120792; 120802; 120812; 120822; 123200;
   123632; 124144; 125264; 130032].

Fixpoint digit_in (zs : list Z) (c : Z) : option Z :=
  match zs with
  | [] => None
  | z :: zs' => if (z <=? c) && (c <=? z + 9) then Some (c - z) else digit_in zs' c
  end.

Definition digit_value (c : Z) : option Z := digit_in DIGIT_ZEROS c.






(** * Exceptions

    A raised Python exception: its class name and message. *)

Record PyExc := mkExc { exc_class : pystr; exc_msg : pystr }.

Inductive Result (A : Type) : Type :=
| Ok : A -> Result A
| Raise : PyExc -> Result A.
Arguments Ok {A} _.
Arguments Raise {A} _.

Definition bind {A B} (m : Result A) (k : A -> Result B) : Result B :=
  match m with Ok a => k a | Raise e => Raise e end.

Notation "'let*' x ':=' m 'in' k" := (bind m (fun x => k))
  (at level 200, x name, m at level 100, k at level 200).

(** * Poster renderer (_generate_poster_sync) *)

(** What the renderer paints on the canvas, in order. *)
Inductive DrawOp :=
| PasteBackground (name : pystr)
| FillHeader (color : pystr)
| HeaderTitle (text : pystr)
| HeaderDate (text : pystr)
| CardBackground (top : Z)
| PlaceholderBox (top : Z) (fill outline : pystr)
| HttpGet (url : pystr)
| PasteProduct (url : pystr) (x y w h : Z)
| BrandGlyph (text : pystr) (color : pystr)
| CardText (top : Z) (d : Deal)
| Footer
| SavePng (date brand : pystr).

Definition width : Z := 1080.
Definition height : Z := 1920.
Definition header_height : Z := 260.
Definition margin_x : Z := 80.
Definition card_height : Z := 260.
Definition card_gap : Z := 30.

Definition FALLBACK_BRAND_NAME : pystr := u "快餐品牌".
Definition FALLBACK_BRAND_SHORT : pystr := u "快餐".

(** [is_placeholder = "example.com" in img_url or "example.org" in img_url] *)
Definition is_placeholder_url (img_url : pystr) : bool :=
  contains img_url (u "example.com") || contains img_url (u "example.org").

Section Render.

(** [bg_path] exists and [Image.open(...).convert/resize] succeeds. *)
Variable background_loads : pystr -> bool.
(** [httpx.get(url, timeout=5.0)], [raise_for_status] and [Image.open]:
    the size of the decoded image, [None] when one of them raises. *)
Variable fetch_image : pystr -> option (Z * Z).
(** [datetime.now().strftime("%Y-%m-%d")] and [...("%Y%m%d")]. *)
Variable today today_compact : pystr.

(** The image slot of one card: product image or brand glyph. *)
Definition card_image_ops (cfg : ThemeCfg) (d : Deal) (card_top card_bottom : Z) :
  list DrawOp :=
  let img_box_left := margin_x + 30 in
  let img_box_top := card_top + 40 in
  let img_box_right := img_box_left + 200 in
  let img_box_bottom := card_bottom - 40 in
  let brand := strip (get_or (d_brand d) []) in
  let brand_short := match brand with [] => FALLBACK_BRAND_SHORT | _ => slice_to 2 brand end in
  let img_url := strip (get_or (d_main_image_url d) []) in
  let '(fetch_ops, pasted_image) :=
    if is_prefix (u "http") img_url && negb (is_placeholder_url img_url) then
      match fetch_image img_url with
      | Some (pw, ph) =>
        let box_w := img_box_right - img_box_left - 16 in
        let box_h := img_box_bottom - img_box_top - 16 in
        if (0 <? pw) && (0 <? ph) && (0 <? box_w) && (0 <? box_h) then
          (* scale = min(box_w / pw, box_h / ph), then int(): computed exactly
             here, where Python rounds in floating point *)
          let new_w := if box_w * ph <=? box_h * pw then box_w else (pw * box_h) / ph in
          let new_h := if box_w * ph <=? box_h * pw then (ph * box_w) / pw else box_h in
          (* [prod_img.resize((new_w, new_h))] raises ValueError on a zero
             side; the [except] then leaves [pasted_image] false *)
          if (0 <? new_w) && (0 <? new_h) then
            ([HttpGet img_url;
              PasteProduct img_url (img_box_left + (box_w - new_w) / 2 + 8)
                                   (img_box_top + (box_h - new_h) / 2 + 8) new_w new_h], true)
          else ([HttpGet img_url], false)
        else ([HttpGet img_url], false)
      | None => ([HttpGet img_url], false)
      end
    else ([], false) in
  fetch_ops ++ (if pasted_image then [] else [BrandGlyph brand_short (card_accent cfg)]).

(** The pagination loop [for idx, deal in enumerate(deals)] from [y]. *)
Fixpoint card_loop (cfg : ThemeCfg) (y : Z) (deals : list Deal) : list DrawOp :=
  match deals with
  | [] => []
  | deal :: rest =>
    if y + card_height + 40 >? height then []
    else
      let card_top := y in
      let card_bottom := y + card_height in
      [CardBackground card_top;
       PlaceholderBox card_top (card_placeholder_fill cfg) (card_placeholder_outline cfg)]
      ++ card_image_ops cfg deal card_top card_bottom
      ++ [CardText card_top deal]
      ++ card_loop cfg (card_bottom + card_gap) rest
  end.

(** The steps outside the [try] blocks may raise: [draw.rectangle],
    [draw.rounded_rectangle], [draw.text] and [_text_size] with the loaded
    fonts, [float(deal.get("price", 0.0))] and [float(origin_price)] of a
    card, and [_ensure_directory(out_dir)] with [image.save(out_path)] for
    [SavePng]: [Some e] when that step raises [e]. *)
Variable draw_error : DrawOp -> option PyExc.

(** A step whose exception propagates; the background paste and the product
    image download sit inside [try ... except Exception]. *)
Definition op_error (op : DrawOp) : option PyExc :=
  match op with
  | PasteBackground _ | HttpGet _ | PasteProduct _ _ _ _ _ => None
  | _ => draw_error op
  end.

(** The first exception raised while executing the steps in order. *)
Fixpoint first_error (ops : list DrawOp) : option PyExc :=
  match ops with
  | [] => None
  | op :: rest => match op_error op with Some e => Some e | None => first_error rest end
  end.

(** The steps of a drawing of a non-empty deal list [d0 :: _]. *)
Definition poster_ops (cfg : ThemeCfg) (d0 : Deal) (deals : list Deal)
    (brand_name : option pystr) : list DrawOp :=
  let brand_name :=
    match brand_name with
    | Some b => b
    | None => str_or (strip (get_or (d_brand d0) [])) FALLBACK_BRAND_NAME
    end in
  let bg_ops :=
    match background_image_name cfg with
    | Some ((_ :: _) as bg_name) => if background_loads bg_name then [PasteBackground bg_name] else []
    | _ => []
    end in
  bg_ops
  ++ [FillHeader (header_color cfg);
      HeaderTitle (brand_name ++ u " · " ++ title_text cfg);
      HeaderDate (u "日期：" ++ today)]
  ++ card_loop cfg (header_height + 40) deals
  ++ [Footer; SavePng today_compact brand_name].

Definition generate_poster_sync (deals : list Deal) (theme : option pystr)
    (brand_name : option pystr) : Result (list DrawOp) :=
  let cfg := resolve_theme theme in
  match deals with
  | [] => Raise (mkExc (u "ValueError") (u "deals is empty"))
  | d0 :: _ =>
    let ops := poster_ops cfg d0 deals brand_name in
    match first_error ops with
    | Some e => Raise e
    | None => Ok ops
    end
  end.

End Render.

(** The cards a drawing shows: their tops and their deals. *)
Definition card_tops (ops : list DrawOp) : list Z :=
  flat_map (fun op => match op with CardBackground t => [t] | _ => [] end) ops.

Definition card_deals (ops : list DrawOp) : list Deal :=
  flat_map (fun op => match op with CardText _ d => [d] | _ => [] end) ops.

Definition http_gets (ops : list DrawOp) : list pystr :=
  flat_map (fun op => match op with HttpGet url => [url] | _ => [] end) ops.

Definition brand_glyphs (ops : list DrawOp) : list pystr :=
  flat_map (fun op => match op with BrandGlyph t _ => [t] | _ => [] end) ops.

(** * Data sources *)

Definition nonempty (s : pystr) : bool := match s with [] => false | _ => true end.

(** [s.lower()] where the result is only compared with ASCII words
    ("rss", "api", "post"): no other code point lowers to one of their
    letters, so only A-Z need mapping. *)
Definition lower_ascii (s : pystr) : pystr :=
  map (fun c => if (65 <=? c) && (c <=? 90) then c + 32 else c) s.

(** [bool(l)] of a list. *)
Definition nonempty_list {A} (l : list A) : bool := match l with [] => false | _ => true end.

Definition DEFAULT_BRANDS : list pystr := [u "肯德基"; u "麦当劳"; u "德克士"].

(** [if not target_brands: target_brands = [...]] *)
Definition brands_or_default (target_brands : list pystr) : list pystr :=
  match target_brands with [] => DEFAULT_BRANDS | _ => target_brands end.

Record Preset := mkPreset {
  p_title : pystr; p_category : pystr; p_price : Q; p_origin_price : Q;
  p_tag : pystr; p_activity : pystr; p_desc : pystr
}.

Definition base_presets : list Preset := [
  mkPreset (u "熔岩蛋包汁汁和牛堡套餐") (u "新品推荐") (329 # 10) (36 # 1)
    (u "新品上市") (u "2月24日-3月22日：新品尝鲜限时优惠")
    (u "软嫩滑蛋，轻薄蛋皮，120g 厚制和牛，口感多汁饱满。");
  mkPreset (u "人气经典鸡腿堡+薯条+饮料") (u "人气热卖") (299 # 10) (35 # 1)
    (u "人气热卖") (u "午市时段任选第二份半价，限堂食或外带。")
    (u "经典脆皮鸡腿堡搭配金黄薯条与冰爽气泡饮，工作日午餐优选。");
  mkPreset (u "三人分享桶（鸡翅+鸡块+薯条）") (u "多人分享") (79 # 1) (96 # 1)
    (u "聚会必点") (u "周末及节假日限时加赠中份薯条一份。")
    (u "适合三五好友小聚，丰富搭配，一桶搞定多种口味。")
].

(** [str(idx)] for the indices [0 <= idx <= 9] of [enumerate(base_presets)]. *)
Definition str_digit (idx : nat) : pystr := [48 + Z.of_nat idx].

Definition mock_image_url (brand : pystr) (idx : nat) : pystr :=
  u "https://example.com/" ++ brand ++ u "/menu_" ++ str_digit idx ++ u ".jpg".

Definition mock_deal (today : pystr) (brand : pystr) (idx : nat) (preset : Preset) : Deal :=
  mkDeal (Some today) (Some brand) (Some (p_title preset)) (Some (p_category preset))
    (Some (p_price preset)) (Some (p_origin_price preset)) (Some (p_tag preset))
    (Some (p_activity preset)) (Some (p_desc preset)) (Some (mock_image_url brand idx)).

Fixpoint enumerate_from {A} (i : nat) (l : list A) : list (nat * A) :=
  match l with [] => [] | x :: r => (i, x) :: enumerate_from (S i) r end.

(** _fetch_mock_deals *)
Definition fetch_mock_deals (today : pystr) (target_brands : list pystr) : list Deal :=
  flat_map (fun brand =>
              map (fun '(idx, preset) => mock_deal today brand idx preset)
                  (enumerate_from 0 base_presets))
           (brands_or_default target_brands).

(** ** RSS *)

(** An [xml.etree.ElementTree.Element]: tag, text, [href] attribute and
    children. *)
#[warnings="-register-all"]
Inductive XElem := XE (tag : pystr) (text : option pystr) (href : option pystr)
                      (children : list XElem).

Definition xe_tag (e : XElem) : pystr := let 'XE t _ _ _ := e in t.
Definition xe_text (e : XElem) : option pystr := let 'XE _ x _ _ := e in x.
Definition xe_href (e : XElem) : option pystr := let 'XE _ _ h _ := e in h.
Definition xe_children (e : XElem) : list XElem := let 'XE _ _ _ cs := e in cs.

(** [bool(el)]: an element is true when it has children. *)
Definition xe_truthy (e : XElem) : bool := match xe_children e with [] => false | _ => true end.

(** [item.find(tag)]: the first child with that tag. *)
Definition find_child (item : XElem) (tag : pystr) : option XElem :=
  find (fun c => pystr_eqb (xe_tag c) tag) (xe_children item).

Definition ATOM_NS : pystr := u "http://www.w3.org/2005/Atom".

(** ElementTree's path compiler refuses the predicate [local-name()='...']. *)
Definition INVALID_PREDICATE : PyExc := mkExc (u "SyntaxError") (u "invalid predicate").

(** The nested [_text(tag, ns)] of [_fetch_from_rss].  Without [ns] it
    evaluates [item.find(tag) or item.find(".//*[local-name()='tag']")]: the
    second [find] runs when the first gives [None] or a childless element,
    and raises. *)
Definition item_text (item : XElem) (tag : pystr) (ns : option pystr) : Result pystr :=
  let* el :=
    match ns with
    | Some ns => Ok (find_child item (u "{" ++ ns ++ u "}" ++ tag))
    | None =>
      match find_child item tag with
      | Some e => if xe_truthy e then Ok (Some e) else Raise INVALID_PREDICATE
      | None => Raise INVALID_PREDICATE
      end
    end in
  match el with
  | None => Ok []
  | Some e =>
    if pystr_eqb tag (u "link") && nonempty (get_or (xe_href e) [])
    then Ok (strip (get_or (xe_href e) []))
    else Ok (strip (get_or (xe_text e) []))
  end.

(** [a or b] on strings where [b] may raise. *)
Definition or_else (a : Result pystr) (b : Result pystr) : Result pystr :=
  let* x := a in match x with [] => b | _ => Ok x end.

(** _infer_brand_from_text *)
Definition infer_brand (text : pystr) (target_brands : list pystr) : option pystr :=
  match text, target_brands with
  | [], _ | _, [] => None
  | _, _ => find (fun b => nonempty b && contains text b) target_brands
  end.

Definition RssKey := (pystr * pystr)%type.

Definition key_eqb (k1 k2 : RssKey) : bool :=
  pystr_eqb (fst k1) (fst k2) && pystr_eqb (snd k1) (snd k2).

Definition key_mem (k : RssKey) (ks : list RssKey) : bool := existsb (key_eqb k) ks.

(** The key [(brand, title[:80])] of an emitted record. *)
Definition rss_key (d : Deal) : RssKey := (get_or (d_brand d) [], get_or (d_title d) []).

Section DataSources.

Variable today : pystr.
(** [_extract_price_from_text]. *)
Variable extract_price : pystr -> option Q.
(** [client.get(url)], [raise_for_status], [ET.fromstring] and the item
    lookup [root.findall(".//item") or root.findall(<Atom entry>)]; [None]
    when one of the first three raises. *)
Variable rss_feed : pystr -> option (list XElem).
(** [_fetch_from_api] past its URL guard: the request, JSON decoding and field
    mapping ([Ok []] when the request or decoding fails, as the source
    catches it). *)
Variable api_deals : pystr -> bool -> list pystr -> Result (list Deal).

(** One [item] of the loop up to the duplicate check: the record it would
    append, [None] when the loop [continue]s. *)
Definition rss_item_deal (target_brands : list pystr) (item : XElem) : Result (option Deal) :=
  let* title := or_else (item_text item (u "title") None) (item_text item (u "title") (Some ATOM_NS)) in
  match title with
  | [] => Ok None
  | _ =>
    let* _link := or_else (item_text item (u "link") None) (item_text item (u "link") (Some ATOM_NS)) in
    let* desc0 := or_else (item_text item (u "description") None)
                          (item_text item (u "summary") (Some ATOM_NS)) in
    let desc := str_or desc0 title in
    let combined := title ++ [32] ++ desc in
    match infer_brand combined target_brands with
    | None => Ok None
    | Some brand =>
      let price := match extract_price combined with Some p => p | None => 0%Q end in
      Ok (Some (mkDeal (Some today) (Some brand) (Some (slice_to 80 title)) (Some (u "RSS 优惠"))
                  (Some price) None
                  (Some (if contains combined (u "限时") || contains combined (u "促销")
                         then u "限时" else u "优惠"))
                  (Some (if nonempty desc then slice_to 120 desc else []))
                  (Some (if nonempty desc then slice_to 200 desc else title))
                  (Some [])))
    end
  end.

Definition RssState := (list RssKey * list Deal)%type.

(** The duplicate check on [seen_keys] and the append. *)
Definition rss_item_step (target_brands : list pystr) (st : RssState) (item : XElem) :
  Result RssState :=
  let '(seen_keys, deals) := st in
  let* od := rss_item_deal target_brands item in
  match od with
  | None => Ok st
  | Some d =>
    let key := rss_key d in
    if key_mem key seen_keys then Ok st else Ok (seen_keys ++ [key], deals ++ [d])
  end.

Fixpoint rss_items (target_brands : list pystr) (st : RssState) (items : list XElem) :
  Result RssState :=
  match items with
  | [] => Ok st
  | item :: rest => let* st' := rss_item_step target_brands st item in rss_items target_brands st' rest
  end.

Fixpoint rss_feeds (target_brands : list pystr) (st : RssState) (urls : list pystr) :
  Result RssState :=
  match urls with
  | [] => Ok st
  | url :: rest =>
    match rss_feed url with
    | None => rss_feeds target_brands st rest
    | Some items => let* st' := rss_items target_brands st items in rss_feeds target_brands st' rest
    end
  end.

(** [(u.strip() for u in rss_urls if u and str(u).strip().startswith("http"))] *)
Definition valid_rss_urls (rss_urls : list pystr) : list pystr :=
  map strip (filter (fun x => nonempty x && is_prefix (u "http") (strip x)) rss_urls).

Definition fetch_from_rss (rss_urls target_brands : list pystr) : Result (list Deal) :=
  let* st := rss_feeds target_brands ([], []) (valid_rss_urls rss_urls) in Ok (snd st).

(** _fetch_from_api *)
Definition fetch_from_api (api_url api_method : pystr) (target_brands : list pystr) :
  Result (list Deal) :=
  if nonempty api_url && is_prefix (u "http") (strip api_url)
  then api_deals api_url (pystr_eqb (lower_ascii (str_or api_method (u "get"))) (u "post"))
                 target_brands
  else Ok [].

(** [rss_urls or []] *)
Definition get_or_list (o : option (list pystr)) : list pystr :=
  match o with Some l => l | None => [] end.

(** fetch_today_deals; [rss_urls] is [Optional[List[str]]]. *)
Definition fetch_today_deals (target_brands : list pystr) (data_source : pystr)
    (rss_urls : option (list pystr)) (api_url api_method : pystr) : Result (list Deal) :=
  let target_brands := brands_or_default target_brands in
  let source := lower_ascii (strip (str_or data_source (u "mock"))) in
  let mock := Ok (fetch_mock_deals today target_brands) in
  if pystr_eqb source (u "rss") then
    match get_or_list rss_urls with
    | [] => mock
    | urls => fetch_from_rss urls target_brands
    end
  else if pystr_eqb source (u "api") then
    if nonempty api_url && is_prefix (u "http") (strip api_url)
    then fetch_from_api (strip api_url) (str_or api_method (u "get")) target_brands
    else mock
  else mock.

End DataSources.

(** * Delivery fan-out (_send_text_to_all, _send_image_to_all) *)

Definition NEWLINE : pystr := [10].

(** _build_group_origin *)
Definition build_group_origin (group_id : pystr) : pystr :=
  u "aiocqhttp:group:" ++ strip group_id.

(** A [MessageChain]: its components. *)
Inductive Component := CText (s : pystr) | CImage (path : pystr).

(** What delivery does: a [send_message] call and whether it returned
    normally, or a [logger.error] about a group. *)
Inductive SendEvent :=
| Sent (origin : pystr) (chain : list Component) (ok : bool)
| LogError (what : pystr) (group : pystr).

(** [f"{x}"] of an [Optional[str]]. *)
Definition format_opt (o : option pystr) : pystr :=
  match o with Some s => s | None => u "None" end.

Definition IMAGE_FALLBACK_SUFFIX : pystr :=
  NEWLINE ++ u "（图片发送失败，请联系管理员检查机器人文件读写权限。）".

Section Delivery.

(** [await self.context.send_message(origin, chain)] returns normally. *)
Variable send_ok : pystr -> list Component -> bool.

Definition send_text_one (text : pystr) (group : pystr) : list SendEvent :=
  let origin := build_group_origin group in
  let chain := [CText text] in
  if send_ok origin chain then [Sent origin chain true]
  else [Sent origin chain false; LogError (u "text") group].

Definition send_text_to_all (target_groups : list pystr) (text : pystr) : list SendEvent :=
  flat_map (send_text_one text) target_groups.

Definition send_image_one (image_path : pystr) (intro_text : option pystr) (group : pystr) :
  list SendEvent :=
  let origin := build_group_origin group in
  let chain :=
    match intro_text with
    | Some ((_ :: _) as t) => [CText t; CImage image_path]
    | _ => [CImage image_path]
    end in
  if send_ok origin chain then [Sent origin chain true]
  else
    let fallback_chain := [CText (format_opt intro_text ++ IMAGE_FALLBACK_SUFFIX)] in
    [Sent origin chain false; LogError (u "image") group]
    ++ (if send_ok origin fallback_chain then [Sent origin fallback_chain true]
        else [Sent origin fallback_chain false; LogError (u "fallback text") group]).

Definition send_image_to_all (target_groups : list pystr) (image_path : pystr)
    (intro_text : option pystr) : list SendEvent :=
  flat_map (send_image_one image_path intro_text) target_groups.

End Delivery.

(** * Daily report (_run_daily_report) *)

Definition FETCH_FAILED_MSG : pystr := u "今日快餐优惠数据获取失败，请稍后重试。".
Definition NO_DEALS_MSG : pystr := u "今日暂无监控到的快餐优惠活动。".
Definition ALL_FAILED_MSG : pystr :=
  u "今日快餐优惠海报全部生成失败，但数据已获取成功，请稍后在控制台查看日志。".
Definition INTRO_MSG : pystr := u "为您奉上今日快餐菜单与活动早报，请查阅。".

Definition poster_failed_msg (brand : pystr) : pystr :=
  brand ++ u " 今日快餐优惠海报生成失败，但数据已获取成功，请稍后在控制台查看日志。".

(** The steps of a report run: a [_send_text_to_all], a [generate_poster]
    call, a [_send_image_to_all]. *)
Inductive ReportEvent :=
| TextToAll (text : pystr)
| GeneratePoster (brand : pystr) (deals : list Deal)
| ImageToAll (path : pystr).

Section Report.

(** [await generate_poster(brand_deals, theme=theme, brand_name=brand)]. *)
Variable generate_poster : pystr -> list Deal -> Result pystr.

(** The poster loop: its events and [posters_to_send]. *)
Fixpoint poster_loop (groups : list (pystr * list Deal)) : list ReportEvent * list pystr :=
  match groups with
  | [] => ([], [])
  | (brand, brand_deals) :: rest =>
    let '(evs, posters) := poster_loop rest in
    match generate_poster brand brand_deals with
    | Ok poster_path => (GeneratePoster brand brand_deals :: evs, poster_path :: posters)
    | Raise _ =>
      (GeneratePoster brand brand_deals :: TextToAll (poster_failed_msg brand) :: evs, posters)
    end
  end.

(** [fetched] is the outcome of [fetch_today_deals]. *)
Definition run_daily_report (target_groups target_brands : list pystr)
    (fetched : Result (list Deal)) : list ReportEvent :=
  match target_groups with
  | [] => []
  | _ =>
    match fetched with
    | Raise _ => [TextToAll FETCH_FAILED_MSG]
    | Ok [] => [TextToAll NO_DEALS_MSG]
    | Ok deals =>
      let '(evs, posters_to_send) := poster_loop (group_deals target_brands deals) in
      match posters_to_send with
      | [] => evs ++ [TextToAll ALL_FAILED_MSG]
      | _ => evs ++ TextToAll INTRO_MSG :: map ImageToAll posters_to_send
      end
    end
  end.

End Report.

(** * Today's theme (get_theme_for_today) *)

(** [datetime.now().weekday()] is the argument (0 = Monday). *)
Definition get_theme_for_today (weekday : Z) : option pystr :=
  if weekday =? 3 then Some CRAZY_THURSDAY else None.

(** * Poster file name (_sanitize_brand_for_filename) *)

Section FileName.

(** [str.isalnum] of one code point (Unicode letters and numbers). *)
Variable isalnum : Z -> bool.

Definition sanitize_brand_for_filename (brand : pystr) : pystr :=
  match brand with
  | [] => u "brand"
  | _ => str_or (filter isalnum brand) (u "brand")
  end.

(** [os.path.join("data", "fastfood_deals", f"fastfood_deals_{today_str}_{brand_safe}.png")]
    with the POSIX separator: where [SavePng date brand] writes. *)
Definition poster_out_path (date brand_name : pystr) : pystr :=
  u "data/fastfood_deals/fastfood_deals_" ++ date ++ u "_"
  ++ sanitize_brand_for_filename brand_name ++ u ".png".

End FileName.

(** * Price extraction (_extract_price_from_text) *)

Definition YEN_SIGNS : list Z := u "¥￥".
Definition YUAN : Z := 20803.
Definition DOT : Z := 46.

(** [\d] of a [str] pattern: a Unicode decimal digit. *)
Definition is_digit (c : Z) : bool :=
  match digit_value c with Some _ => true | None => false end.

(** The longest prefix of [s] whose characters satisfy [p], and the rest. *)
Fixpoint span (p : Z -> bool) (s : pystr) : pystr * pystr :=
  match s with
  | c :: r => if p c then let '(a, b) := span p r in (c :: a, b) else ([], s)
  | [] => ([], [])
  end.

(** [\d+\.?\d*] at the start of [s], each part as long as it goes (no
    shorter choice is needed by either pattern, see [match_yuan_at]): the
    group and what follows it. *)
Definition match_number (s : pystr) : option (pystr * pystr) :=
  match span is_digit s with
  | ([], _) => None
  | (ds, rest) =>
    match rest with
    | c :: r =>
      if c =? DOT then let '(fs, rest') := span is_digit r in Some (ds ++ c :: fs, rest')
      else Some (ds, rest)
    | [] => Some (ds, [])
    end
  end.

(** The pattern [[¥￥]\s*] followed by the group [\d+\.?\d*], at the start
    of [s]: the group.  Giving back
    spaces of [\s*] leaves a space where [\d] is needed, so the greedy
    choice is the only one. *)
Definition match_yen_at (s : pystr) : option pystr :=
  match s with
  | c :: r =>
    if existsb (Z.eqb c) YEN_SIGNS then option_map fst (match_number (snd (span is_space r)))
    else None
  | [] => None
  end.

(** The group [\d+\.?\d*] followed by [\s*元], at the start of [s]: the
    group.  A shorter group than
    the greedy one ends before a digit or a dot, where neither [\s] nor
    [元] matches, so only the greedy group can be followed by [\s*元]. *)
Definition match_yuan_at (s : pystr) : option pystr :=
  match match_number s with
  | Some (g, rest) =>
    match snd (span is_space rest) with
    | c :: _ => if c =? YUAN then Some g else None
    | [] => None
    end
  | None => None
  end.

(** [re.search]: the match at the leftmost position where there is one. *)
Fixpoint re_search (m : pystr -> option pystr) (s : pystr) : option pystr :=
  match m s with
  | Some g => Some g
  | None => match s with [] => None | _ :: r => re_search m r end
  end.

Section Price.

(** [float(m.group(1))]: [None] when it raises [ValueError]. *)
Variable py_float : pystr -> option Q.

Definition extract_price_from_text (text : pystr) : option Q :=
  match text with
  | [] => None
  | _ =>
    let first :=
      match re_search match_yen_at text with Some g => py_float g | None => None end in
    match first with
    | Some p => Some p
    | None => match re_search match_yuan_at text with Some g => py_float g | None => None end
    end
  end.

End Price.

(** * The chat command (cmd_fastfood_report) *)

Definition CMD_POSTER_FAILED_MSG (brand : pystr) : pystr :=
  brand ++ u " 今日快餐优惠海报生成失败，请稍后重试。".

(** What the command does: a [yield event.plain_result(...)], a
    [generate_poster] call, a [yield event.image_result(...)]. *)
Inductive CmdEvent :=
| PlainResult (text : pystr)
| CmdGeneratePoster (brand : pystr) (deals : list Deal)
| ImageResult (path : pystr).

Section Command.

Variable generate_poster : pystr -> list Deal -> Result pystr.

(** [fetched] is the outcome of [fetch_today_deals]. *)
Definition cmd_fastfood_report (target_brands : list pystr) (fetched : Result (list Deal)) :
  list CmdEvent :=
  match fetched with
  | Raise _ => [PlainResult FETCH_FAILED_MSG]
  | Ok [] => [PlainResult NO_DEALS_MSG]
  | Ok deals =>
    PlainResult INTRO_MSG
    :: flat_map (fun '(brand, brand_deals) =>
                   CmdGeneratePoster brand brand_deals
                   :: match generate_poster brand brand_deals with
                      | Ok poster_path => [ImageResult poster_path]
                      | Raise _ => [PlainResult (CMD_POSTER_FAILED_MSG brand)]
                      end)
                (group_deals target_brands deals)
  end.

End Command.

(** * The API field mapping (_fetch_from_api) *)

(** A value [resp.json()] gives: [None], [bool], [int], [float], [str],
    [list] or [dict] (its keys distinct, as [json.loads] builds it). *)
#[warnings="-register-all"]
Inductive Json :=
| JNull
| JBool (b : bool)
| JInt (z : Z)
| JFloat (q : Q)
| JStr (s : pystr)
| JArr (l : list Json)
| JObj (fields : list (pystr * Json)).

(** [bool(v)] *)
Definition json_truthy (v : Json) : bool :=
  match v with
  | JNull => false
  | JBool b => b
  | JInt z => negb (z =? 0)
  | JFloat q => negb (Qeq_bool q 0)
  | JStr s => nonempty s
  | JArr l => match l with [] => false | _ => true end
  | JObj f => match f with [] => false | _ => true end
  end.

(** [type(v).__name__] *)
Definition json_type_name (v : Json) : pystr :=
  match v with
  | JNull => u "NoneType"
  | JBool _ => u "bool"
  | JInt _ => u "int"
  | JFloat _ => u "float"
  | JStr _ => u "str"
  | JArr _ => u "list"
  | JObj _ => u "dict"
  end.

Fixpoint obj_get (f : list (pystr * Json)) (k : pystr) : option Json :=
  match f with
  | [] => None
  | (k', v) :: f' => if pystr_eqb k k' then Some v else obj_get f' k
  end.

(** [item.get(k)]: [None] when the key is absent. *)
Definition get_none (f : list (pystr * Json)) (k : pystr) : Json :=
  match obj_get f k with Some v => v | None => JNull end.

(** [v or w1 or ... or wn]: the first true operand, else the last one. *)
Fixpoint json_or (v : Json) (rest : list Json) : Json :=
  match rest with
  | [] => v
  | w :: rest' => if json_truthy v then v else json_or w rest'
  end.

Definition QUOTE : pystr := [39].

Definition TYPE_ERROR_NOT_ITERABLE (v : Json) : PyExc :=
  mkExc (u "TypeError") (QUOTE ++ json_type_name v ++ u "' object is not iterable").

Definition ATTRIBUTE_ERROR_STRIP (v : Json) : PyExc :=
  mkExc (u "AttributeError") (QUOTE ++ json_type_name v ++ u "' object has no attribute 'strip'").

(** [except (TypeError, ValueError)] *)
Definition catches_type_value (e : PyExc) : bool :=
  pystr_eqb (exc_class e) (u "TypeError") || pystr_eqb (exc_class e) (u "ValueError").

Section ApiMapping.

Variable today : pystr.
(** [str(v)] of a value that is not a [str]. *)
Variable py_repr : Json -> pystr.
(** [float(v)]: its value, or the exception it raises: [TypeError] or
    [ValueError] (a subclass counted as its base) for a value it cannot
    read, [OverflowError] for an [int] beyond the float range. *)
Variable json_float : Json -> Result Q.
(** [client.post(api_url)] or [client.get(api_url)], [raise_for_status] and
    [resp.json()]: [None] when one of them raises. *)
Variable api_request : pystr -> bool -> option Json.

(** [str(v)] *)
Definition json_str (v : Json) : pystr :=
  match v with JStr s => s | _ => py_repr v end.

(** The loop body for one [item] of [raw]: the record appended, [None] when
    the loop [continue]s. *)
Definition api_item_deal (target_brands : list pystr) (item : Json) : Result (option Deal) :=
  match item with
  | JObj f =>
    let get := get_none f in
    let* brand :=
      match json_or (get (u "brand")) [get (u "品牌"); JStr []] with
      | JStr s => Ok (strip s)
      | v => Raise (ATTRIBUTE_ERROR_STRIP v)
      end in
    if nonempty_list target_brands && negb (pystr_mem brand target_brands) then Ok None
    else
      let brand :=
        match brand with
        | [] => match target_brands with b0 :: _ => b0 | [] => u "其他" end
        | _ => brand
        end in
      let title := json_str (json_or (get (u "title")) [get (u "商品"); get (u "name");
                                                          JStr (u "未知商品")]) in
      let price :=
        match get (u "price") with
        | JNull => json_or (get (u "到手价")) [get (u "final_price")]
        | p => p
        end in
      let* price :=
        match price with
        | JNull => Ok 0%Q
        | p => match json_float p with
               | Ok q => Ok q
               | Raise e => if catches_type_value e then Ok 0%Q else Raise e
               end
        end in
      let origin := json_or (get (u "origin_price")) [get (u "原价"); get (u "original_price")] in
      let* origin_price :=
        match origin with
        | JNull => Ok None
        | o => match json_float o with
               | Ok q => Ok (Some q)
               | Raise e => if catches_type_value e then Ok None else Raise e
               end
        end in
      Ok (Some (mkDeal
        (Some today) (Some brand) (Some (slice_to 80 title))
        (Some (json_str (json_or (get (u "category")) [get (u "分类"); JStr (u "优惠")])))
        (Some price) origin_price
        (Some (json_str (json_or (get (u "tag")) [get (u "标签"); JStr (u "优惠")])))
        (Some (json_str (json_or (get (u "activity")) [get (u "活动"); JStr []])))
        (Some (json_str (json_or (get (u "desc")) [get (u "推荐"); get (u "recommendation");
                                                    JStr title])))
        (Some (json_str (json_or (get (u "main_image_url")) [get (u "image"); JStr []])))))
  | _ => Ok None
  end.

Fixpoint api_items (target_brands : list pystr) (items : list Json) : Result (list Deal) :=
  match items with
  | [] => Ok []
  | item :: rest =>
    let* od := api_item_deal target_brands item in
    let* ds := api_items target_brands rest in
    Ok (match od with Some d => d :: ds | None => ds end)
  end.

(** [if not isinstance(raw, list): raw = raw.get("data", raw.get("deals", []))
    if isinstance(raw, dict) else []] and [for item in raw]: a [dict]
    iterates over its keys, a [str] over its characters. *)
Definition api_raw_items (raw : Json) : Result (list Json) :=
  let raw :=
    match raw with
    | JArr _ => raw
    | JObj f =>
      match obj_get f (u "data") with
      | Some v => v
      | None => match obj_get f (u "deals") with Some v => v | None => JArr [] end
      end
    | _ => JArr []
    end in
  match raw with
  | JArr l => Ok l
  | JObj f => Ok (map (fun kv => JStr (fst kv)) f)
  | JStr s => Ok (map (fun c => JStr [c]) s)
  | v => Raise (TYPE_ERROR_NOT_ITERABLE v)
  end.

Definition api_map (target_brands : list pystr) (raw : Json) : Result (list Deal) :=
  let* items := api_raw_items raw in api_items target_brands items.

(** [_fetch_from_api] past its URL guard, the [api_deals] of the data
    sources. *)
Definition api_deals_json (api_url : pystr) (is_post : bool) (target_brands : list pystr) :
  Result (list Deal) :=
  match api_request api_url is_post with
  | None => Ok []
  | Some raw => api_map target_brands raw
  end.

End ApiMapping.

(** * Spec-side notions *)

(** The top of the [i]-th card (from 0) below the header. *)
Definition card_top_at (i : nat) : Z :=
  header_height + 40 + Z.of_nat i * (card_height + card_gap).

(** [k] cards fit when the [k]-th card's bottom edge plus 40 is within the
    canvas. *)
Definition cards_fit (k : nat) : Prop :=
  k = 0%nat \/ card_top_at (pred k) + card_height + 40 <= height.


(** A run of the characters [str.strip] removes. *)
Definition all_space (w : pystr) : Prop := Forall (fun c => is_space c = true) w.


(** The two-character brand glyph a card shows in its image slot. *)
Definition brand_glyph_text (d : Deal) : pystr :=
  match strip (get_or (d_brand d) []) with
  | [] => FALLBACK_BRAND_SHORT
  | b => slice_to 2 b
  end.

(** [p in s] for strings, as a proposition. *)
Definition substring (p s : pystr) : Prop := exists x y, s = x ++ p ++ y.

(** The [send_message] calls of a delivery run and the groups it logs an
    error for. *)
Definition sent_chains (evs : list SendEvent) : list (pystr * list Component) :=
  flat_map (fun ev => match ev with Sent o c _ => [(o, c)] | _ => [] end) evs.

Definition error_groups (evs : list SendEvent) : list pystr :=
  flat_map (fun ev => match ev with LogError _ g => [g] | _ => [] end) evs.

Definition has_image (c : list Component) : bool :=
  existsb (fun x => match x with CImage _ => true | _ => false end) c.

(** The command's [generate_poster] calls and its replies. *)
Definition cmd_calls (evs : list CmdEvent) : list (pystr * list Deal) :=
  flat_map (fun ev => match ev with CmdGeneratePoster b ds => [(b, ds)] | _ => [] end) evs.

Definition cmd_replies (evs : list CmdEvent) : list CmdEvent :=
  filter (fun ev => match ev with CmdGeneratePoster _ _ => false | _ => true end) evs.

(** A string of the shape [\d+\.?\d*]. *)
Definition number_shape (g : pystr) : Prop :=
  exists ds fs, ds <> [] /\ Forall (fun c => is_digit c = true) ds /\
    Forall (fun c => is_digit c = true) fs /\ (g = ds \/ g = ds ++ DOT :: fs).

(** [g] stands right after a currency sign and optional spaces in [text]. *)
Definition after_yen (text g : pystr) : Prop :=
  exists x c w y, text = x ++ c :: w ++ g ++ y /\ In c YEN_SIGNS /\ all_space w.

(** [g] stands right before optional spaces and [元] in [text]. *)
Definition before_yuan (text g : pystr) : Prop :=
  exists x w y, text = x ++ g ++ w ++ YUAN :: y /\ all_space w.

(** A currency sign, optional spaces, a digit. *)
Definition has_yen_number (text : pystr) : Prop :=
  exists x c w d y, text = x ++ c :: w ++ d :: y /\ In c YEN_SIGNS /\ all_space w /\
    is_digit d = true.

(** A number of the shape [\d+\.?\d*], optional spaces, [元]. *)
Definition has_yuan_number (text : pystr) : Prop :=
  exists g, number_shape g /\ before_yuan text g.

(** The number [g] cannot be extended by what follows it, [y]: [y] does not
    start with a digit, nor with a dot when [g] has none. *)
Definition number_end (g y : pystr) : Prop :=
  forall c y', y = c :: y' -> is_digit c = false /\ (c = DOT -> In DOT g).

(** The stripped image URL of a card. *)
Definition card_image_url (d : Deal) : pystr := strip (get_or (d_main_image_url d) []).

(** An image URL the renderer downloads: [http...] and not a placeholder. *)
Definition downloads_image (img_url : pystr) : bool :=
  is_prefix (u "http") img_url && negb (is_placeholder_url img_url).

(** The distinct strings of a list, in order of first appearance. *)
Definition dedup_keys (l : list pystr) : list pystr :=
  fold_left (fun acc k => if pystr_mem k acc then acc else acc ++ [k]) l [].

(** The deals whose brand key is [b], in input order. *)
Definition deals_of_brand (deals : list Deal) (b : pystr) : list Deal :=
  filter (fun d => pystr_eqb (deal_brand_key d) b) deals.

(** The brand groups as a closed form: the configured brands that occur
    among the deals' brand keys, in configured order, then the other brand
    keys in order of first appearance; each with its deals in input order. *)
Definition brand_groups_spec (target_brands : list pystr) (deals : list Deal) :
  list (pystr * list Deal) :=
  let K := dedup_keys (map deal_brand_key deals) in
  map (fun b => (b, deals_of_brand deals b))
      (filter (fun b => pystr_mem b K) target_brands ++
       filter (fun b => negb (pystr_mem b target_brands)) K).

(** The [generate_poster] calls of a report run, in order. *)
Definition poster_calls (evs : list ReportEvent) : list (pystr * list Deal) :=
  flat_map (fun ev => match ev with GeneratePoster b ds => [(b, ds)] | _ => [] end) evs.

(** A deal with only a brand and a title. *)
Definition deal_of (brand title : pystr) : Deal :=
  mkDeal None (Some brand) (Some title) None None None None None None None.

(** The records of a list whose key no earlier record has: the first
    occurrence of each [(brand, title)] key, in order. *)
Definition keep_first (l : list Deal) : list Deal :=
  map fst (filter (fun p => negb (key_mem (rss_key (fst p)) (map rss_key (firstn (snd p) l))))
                  (combine l (seq 0 (length l)))).

(** [keep_first] after the keys in [seen]. *)
Fixpoint keep_first_from (seen : list RssKey) (l : list Deal) : list Deal :=
  match l with
  | [] => []
  | d :: l =>
    if key_mem (rss_key d) seen then keep_first_from seen l
    else d :: keep_first_from (seen ++ [rss_key d]) l
  end.

Section RssCandidates.

Variable today : pystr.
Variable extract_price : pystr -> option Q.
Variable rss_feed : pystr -> option (list XElem).

(** The records the items of one feed would give with no duplicate check. *)
Fixpoint rss_item_candidates (target_brands : list pystr) (items : list XElem) :
  Result (list Deal) :=
  match items with
  | [] => Ok []
  | item :: rest =>
    let* od := rss_item_deal today extract_price target_brands item in
    let* cs := rss_item_candidates target_brands rest in
    Ok (match od with Some d => d :: cs | None => cs end)
  end.

Fixpoint rss_feed_candidates (target_brands : list pystr) (urls : list pystr) :
  Result (list Deal) :=
  match urls with
  | [] => Ok []
  | url :: rest =>
    match rss_feed url with
    | None => rss_feed_candidates target_brands rest
    | Some items =>
      let* cs1 := rss_item_candidates target_brands items in
      let* cs2 := rss_feed_candidates target_brands rest in
      Ok (cs1 ++ cs2)
    end
  end.

(** Every record of every feed, in feed and item order. *)
Definition rss_candidates (rss_urls target_brands : list pystr) : Result (list Deal) :=
  rss_feed_candidates target_brands (valid_rss_urls rss_urls).

End RssCandidates.

(** * Lemmas on strings *)

Lemma pystr_eqb_eq (a b : pystr) : pystr_eqb a b = true <-> a = b.
Proof. unfold pystr_eqb; destruct (list_eq_dec Z.eq_dec a b); split; congruence. Qed.

Lemma pystr_mem_In x xs : pystr_mem x xs = true <-> In x xs.
Proof.
  unfold pystr_mem; rewrite existsb_exists; split.
  - intros [y [Hy Heq]]; apply pystr_eqb_eq in Heq; subst; auto.
  - intros H; exists x; split; auto; apply pystr_eqb_eq; auto.
Qed.

(** * Theme registry *)

Lemma generate_poster_sync_ok bl fi t tc de deals theme bn ops :
  generate_poster_sync bl fi t tc de deals theme bn = Ok ops ->
  exists d0 rest, deals = d0 :: rest /\
    ops = poster_ops bl fi t tc (resolve_theme theme) d0 deals bn /\ first_error de ops = None.
Proof.
  unfold generate_poster_sync; destruct deals as [|d0 rest]; [discriminate|].
  cbv zeta.
  destruct (first_error de (poster_ops bl fi t tc (resolve_theme theme) d0 (d0 :: rest) bn)) eqn:E;
    [discriminate|].
  intros H; injection H as <-; eauto.
Qed.

Lemma first_error_some de ops e :
  first_error de ops = Some e -> exists op, In op ops /\ op_error de op = Some e.
Proof.
  induction ops as [|op ops IH]; [discriminate|].
  simpl; destruct (op_error de op) eqn:E.
  - intros H; injection H as ->; exists op; split; [left; reflexivity|exact E].
  - intros H; destruct (IH H) as (op' & Hin & He); exists op'; split; [right; exact Hin|exact He].
Qed.

(** C4: theme resolution never fails; [None], the empty key and every key
    but "crazy_thursday" give the default configuration, "crazy_thursday"
    gives its own, whose header colour #e4002b differs from the default
    #ff6b3b; the renderer paints the header with the resolved colour. *)
Theorem resolve_theme_spec :
  resolve_theme None = DEFAULT_THEME /\
  (forall k, resolve_theme (Some k) =
             if pystr_eqb k CRAZY_THURSDAY then CRAZY_THURSDAY_THEME else DEFAULT_THEME) /\
  resolve_theme (Some CRAZY_THURSDAY) = CRAZY_THURSDAY_THEME /\
  header_color CRAZY_THURSDAY_THEME = u "#e4002b" /\
  header_color DEFAULT_THEME = u "#ff6b3b" /\
  header_color CRAZY_THURSDAY_THEME <> header_color DEFAULT_THEME /\
  (forall bl fi t tc de deals theme bn ops,
     generate_poster_sync bl fi t tc de deals theme bn = Ok ops ->
     In (FillHeader (header_color (resolve_theme theme))) ops).
Proof.
  split; [reflexivity|].
  split.
  { intros [|c k]; [reflexivity|].
    unfold resolve_theme, THEME_CONFIG, assoc_get.
    destruct (pystr_eqb (c :: k) CRAZY_THURSDAY); reflexivity. }
  split; [reflexivity|].
  split; [reflexivity|].
  split; [reflexivity|].
  split; [vm_compute; discriminate|].
  intros bl fi t tc de deals theme bn ops H.
  apply generate_poster_sync_ok in H as (d0 & rest & _ & -> & _).
  unfold poster_ops; apply in_or_app; right; left; reflexivity.
Qed.

(** * Grouping *)

(** The grouping example of the spec: deals [d1(A), d2(B), d3(A)] with
    preferred order [B, A] give [B -> [d2], A -> [d1, d3]]; with no preferred
    order, [X -> [d1], Y -> [d2]]. *)
Example group_deals_spec_examples :
  let d1 := deal_of (u "brandA") (u "d1") in
  let d2 := deal_of (u "brandB") (u "d2") in
  let d3 := deal_of (u "brandA") (u "d3") in
  group_deals [u "brandB"; u "brandA"] [d1; d2; d3]
  = [(u "brandB", [d2]); (u "brandA", [d1; d3])] /\
  group_deals [] [deal_of (u "brandX") (u "d1"); deal_of (u "brandY") (u "d2")]
  = [(u "brandX", [deal_of (u "brandX") (u "d1")]); (u "brandY", [deal_of (u "brandY") (u "d2")])].
Proof. vm_compute; split; reflexivity. Qed.

(** C1 (failing input): a brand listed twice in [target_brands] is put in
    [ordered_brands] twice, so its bucket is emitted twice and the report
    renders its deals on two posters. *)
Theorem group_deals_repeated_preferred_brand :
  let d1 := deal_of (u "肯德基") (u "d1") in
  group_deals [u "肯德基"; u "肯德基"] [d1] = [(u "肯德基", [d1]); (u "肯德基", [d1])] /\
  run_daily_report (fun _ _ => Ok (u "poster.png")) [u "123456"] [u "肯德基"; u "肯德基"] (Ok [d1])
  = [GeneratePoster (u "肯德基") [d1]; GeneratePoster (u "肯德基") [d1];
     TextToAll INTRO_MSG; ImageToAll (u "poster.png"); ImageToAll (u "poster.png")].
Proof. vm_compute; split; reflexivity. Qed.

(** * Data-source selection *)

(** C5 (failing input): with [data_source = "rss"] and a non-empty list of
    feed URLs none of which is an http URL, [fetch_today_deals] does not fall
    back to the mock source: [_fetch_from_rss] drops every URL and returns no
    deal, while the mock source has deals. *)
Theorem fetch_rss_invalid_urls_no_fallback :
  forall today extract_price rss_feed api_deals,
  fetch_today_deals today extract_price rss_feed api_deals [] (u "rss")
    (Some [u "www.smzdm.com/feed"]) [] (u "get") = Ok [] /\
  fetch_today_deals today extract_price rss_feed api_deals [] (u "rss") (Some []) [] (u "get")
    = Ok (fetch_mock_deals today DEFAULT_BRANDS) /\
  fetch_mock_deals today DEFAULT_BRANDS <> [].
Proof.
  intros; split; [|split].
  - vm_compute; reflexivity.
  - vm_compute; reflexivity.
  - discriminate.
Qed.

(** * Delivery *)

(** C7 (failing input): [_run_daily_report] calls [_send_image_to_all]
    without a caption; when the image send fails, the fallback text begins
    with the literal "None" rather than with a caption. *)
Theorem send_image_fallback_without_caption :
  forall image_path,
  send_image_to_all (fun _ chain => match chain with [CImage _] => false | _ => true end)
    [u "123456"] image_path None
  = [Sent (u "aiocqhttp:group:123456") [CImage image_path] false;
     LogError (u "image") (u "123456");
     Sent (u "aiocqhttp:group:123456")
          [CText (u "None" ++ IMAGE_FALLBACK_SUFFIX)] true].
Proof. intros; reflexivity. Qed.

(** * Renderer: empty input and brand name *)

(** C3 (counterexample): on an empty deal list the renderer raises a
    [ValueError], not an [EmptyInputError]. *)
Lemma generate_poster_empty_not_EmptyInputError :
  match generate_poster_sync (fun _ => false) (fun _ => None) [] [] (fun _ => None) [] None None with
  | Raise e => pystr_eqb (exc_class e) (u "EmptyInputError") = false
  | Ok _ => False
  end.
Proof. vm_compute; reflexivity. Qed.

(** C3 (amended): on an empty deal list the renderer raises
    [ValueError("deals is empty")] and draws nothing; a drawing it
    completes of deals with no brand name uses the first deal's brand,
    stripped, or "快餐品牌" when that is empty, in the title and the file
    name. *)
Theorem generate_poster_empty_and_default_brand :
  (forall bl fi t tc de theme bn,
     generate_poster_sync bl fi t tc de [] theme bn
     = Raise (mkExc (u "ValueError") (u "deals is empty"))) /\
  (forall bl fi t tc de d rest theme ops,
     let b := str_or (strip (get_or (d_brand d) [])) FALLBACK_BRAND_NAME in
     generate_poster_sync bl fi t tc de (d :: rest) theme None = Ok ops ->
     In (HeaderTitle (b ++ u " · " ++ title_text (resolve_theme theme))) ops /\
     In (SavePng tc b) ops).
Proof.
  split; [reflexivity|].
  intros bl fi t tc de d rest theme ops b H.
  apply generate_poster_sync_ok in H as (d0 & rest' & Heq & -> & _).
  injection Heq as <- <-.
  unfold poster_ops; split.
  - apply in_or_app; right; right; left; reflexivity.
  - apply in_or_app; right.
    do 3 apply in_cons.
    apply in_or_app; right; right; left; reflexivity.
Qed.

Lemma generate_poster_empty_and_default_brand_witness :
  let d := deal_of (u " 肯德基 ") (u "全家桶") in
  generate_poster_sync (fun _ => false) (fun _ => None) (u "2024-01-04") (u "20240104")
    (fun _ => None) [d] None None =
  Ok (match generate_poster_sync (fun _ => false) (fun _ => None) (u "2024-01-04") (u "20240104")
              (fun _ => None) [d] None None with Ok ops => ops | Raise _ => [] end) /\
  In (SavePng (u "20240104") (u "肯德基"))
     (match generate_poster_sync (fun _ => false) (fun _ => None) (u "2024-01-04") (u "20240104")
              (fun _ => None) [d] None None with Ok ops => ops | Raise _ => [] end).
Proof.
  intros d.
  assert (H : generate_poster_sync (fun _ => false) (fun _ => None) (u "2024-01-04") (u "20240104")
    (fun _ => None) [d] None None =
    Ok (match generate_poster_sync (fun _ => false) (fun _ => None) (u "2024-01-04") (u "20240104")
              (fun _ => None) [d] None None with Ok ops => ops | Raise _ => [] end))
    by (vm_compute; reflexivity).
  split; [exact H|].
  exact (proj2 (proj2 generate_poster_empty_and_default_brand _ _ _ _ _ d [] None _ H)).
Defined.

(** * Renderer: pagination *)

Lemma card_tops_app l1 l2 : card_tops (l1 ++ l2) = card_tops l1 ++ card_tops l2.
Proof. apply flat_map_app. Qed.

Lemma card_deals_app l1 l2 : card_deals (l1 ++ l2) = card_deals l1 ++ card_deals l2.
Proof. apply flat_map_app. Qed.

Lemma http_gets_app l1 l2 : http_gets (l1 ++ l2) = http_gets l1 ++ http_gets l2.
Proof. apply flat_map_app. Qed.

Lemma brand_glyphs_app l1 l2 : brand_glyphs (l1 ++ l2) = brand_glyphs l1 ++ brand_glyphs l2.
Proof. apply flat_map_app. Qed.

Ltac split_ifs :=
  repeat match goal with
         | |- context [if ?b then _ else _] => destruct b
         | |- context [match ?x with Some _ => _ | None => _ end] => destruct x as [[? ?]|]
         end.

Lemma card_image_ops_no_card fi cfg d top bottom :
  card_tops (card_image_ops fi cfg d top bottom) = [] /\
  card_deals (card_image_ops fi cfg d top bottom) = [].
Proof. unfold card_image_ops; cbv zeta; split_ifs; split; reflexivity. Qed.

Lemma card_top_at_succ i : card_top_at i + card_height + card_gap = card_top_at (S i).
Proof. unfold card_top_at, card_height, card_gap; lia. Qed.

Lemma card_loop_cards fi cfg ds : forall i, (i <= 5)%nat ->
  card_tops (card_loop fi cfg (card_top_at i) ds) = map card_top_at (seq i (min (length ds) (5 - i))) /\
  card_deals (card_loop fi cfg (card_top_at i) ds) = firstn (5 - i) ds.
Proof.
  induction ds as [|d ds IH]; intros i Hi.
  - split; [rewrite Nat.min_0_l|rewrite firstn_nil]; reflexivity.
  - simpl card_loop.
    destruct (Nat.eq_dec i 5) as [->|Hne].
    + replace (card_top_at 5 + card_height + 40 >? height) with true
        by (vm_compute; reflexivity).
      split; reflexivity.
    + replace (card_top_at i + card_height + 40 >? height) with false
        by (symmetry; rewrite Z.gtb_ltb; apply Z.ltb_ge;
            unfold card_top_at, card_height, card_gap, header_height, height; lia).
      destruct (card_image_ops_no_card fi cfg d (card_top_at i) (card_top_at i + card_height))
        as [Ht Hd].
      rewrite card_top_at_succ.
      destruct (IH (S i) ltac:(lia)) as [IHt IHd].
      replace (5 - i)%nat with (S (5 - S i)) by lia.
      split.
      * change (card_tops (CardBackground (card_top_at i) :: PlaceholderBox _ _ _ :: ?x))
          with (card_top_at i :: card_tops x).
        rewrite card_tops_app, Ht.
        change (card_tops (CardText _ _ :: ?y)) with (card_tops y).
        rewrite IHt; reflexivity.
      * change (card_deals (CardBackground _ :: PlaceholderBox _ _ _ :: ?x)) with (card_deals x).
        rewrite card_deals_app, Hd.
        change (card_deals (CardText _ d :: ?y)) with (d :: card_deals y).
        rewrite IHd; reflexivity.
Qed.

Lemma firstn_min_length {A} (l : list A) n : firstn n l = firstn (min (length l) n) l.
Proof.
  destruct (Nat.le_ge_cases (length l) n).
  - rewrite Nat.min_l by lia; rewrite !firstn_all2 by lia; reflexivity.
  - rewrite Nat.min_r by lia; reflexivity.
Qed.

(** C2: cards start at y = 260 + 40, are 260 tall with a gap of 30, and the
    loop stops before the first card whose top plus 260 plus 40 exceeds
    1920, without error: the number of cards drawn is the largest
    [k <= N] such that the [k]-th card's bottom edge plus 40 is within the
    canvas, and the cards drawn are the first [k] deals at those tops.  The
    cards left out raise nothing: the renderer fails on the empty deal list,
    and otherwise only when one of the steps it executes raises. *)
Theorem poster_cards_truncated : forall bl fi t tc de deals theme bn,
  match generate_poster_sync bl fi t tc de deals theme bn with
  | Ok ops =>
    let k := length (card_tops ops) in
    (k <= length deals)%nat /\ cards_fit k /\
    (forall j, (j <= length deals)%nat -> cards_fit j -> (j <= k)%nat) /\
    card_tops ops = map card_top_at (seq 0 k) /\
    card_deals ops = firstn k deals
  | Raise e =>
    match deals with
    | [] => e = mkExc (u "ValueError") (u "deals is empty")
    | d0 :: _ =>
      exists op, In op (poster_ops bl fi t tc (resolve_theme theme) d0 deals bn) /\
                 op_error de op = Some e
    end
  end.
Proof.
  intros bl fi t tc de deals theme bn.
  destruct deals as [|d0 rest]; [reflexivity|].
  unfold generate_poster_sync; cbv beta iota zeta.
  destruct (first_error de (poster_ops bl fi t tc (resolve_theme theme) d0 (d0 :: rest) bn)) as [e|]
    eqn:E; [apply first_error_some; exact E|].
  clear E; unfold poster_ops; cbv beta iota zeta.
  set (deals := d0 :: rest).
  set (cfg := resolve_theme theme).
  set (bg := match background_image_name cfg with
             | Some ((_ :: _) as n) => if bl n then [PasteBackground n] else []
             | _ => [] end).
  assert (Hbg : card_tops bg = [] /\ card_deals bg = []).
  { subst bg; destruct (background_image_name cfg) as [[|c n]|]; try (split; reflexivity).
    destruct (bl (c :: n)); split; reflexivity. }
  destruct Hbg as [Hbt Hbd].
  destruct (card_loop_cards fi cfg deals 0 ltac:(lia)) as [Ht Hd].
  change (header_height + 40) with (card_top_at 0).
  remember (card_loop fi cfg (card_top_at 0) deals) as L eqn:HL.
  rewrite !card_tops_app, !card_deals_app, Hbt, Hbd.
  simpl.
  rewrite !app_nil_r, Ht, Hd, length_map, length_seq.
  change (5 - 0)%nat with 5%nat.
  change (S (length rest)) with (length deals).
  set (m := min (length deals) 5).
  assert (Hm : (m <= 5)%nat) by (subst m; lia).
  repeat split.
  - subst m; lia.
  - unfold cards_fit; destruct m as [|m']; [left; reflexivity|right].
    simpl pred; unfold card_top_at, card_height, card_gap, header_height, height; lia.
  - intros j Hj [->|Hfit]; [lia|].
    destruct j as [|j']; [lia|].
    simpl pred in Hfit; unfold card_top_at, card_height, card_gap, header_height, height in Hfit.
    subst m; lia.
  - apply firstn_min_length.
Qed.

(** * Schedule time *)

Lemma lstrip_app x y :
  lstrip (x ++ y) = match lstrip x with [] => lstrip y | _ => lstrip x ++ y end.
Proof.
  induction x as [|c x IH]; [reflexivity|].
  simpl; destruct (is_space c); [exact IH|reflexivity].
Qed.

Lemma lstrip_spaces_app w x : all_space w -> lstrip (w ++ x) = lstrip x.
Proof. induction 1 as [|c w Hc _ IH]; [reflexivity|]; simpl; rewrite Hc; exact IH. Qed.

Lemma lstrip_all_space w : all_space w -> lstrip w = [].
Proof. intros H; rewrite <- (app_nil_r w), lstrip_spaces_app by exact H; reflexivity. Qed.

Lemma lstrip_decomp s : exists w, all_space w /\ s = w ++ lstrip s.
Proof.
  induction s as [|c s [w [Hw Hs]]]; [exists []; split; [constructor|reflexivity]|].
  simpl; destruct (is_space c) eqn:Hc.
  - exists (c :: w); split; [constructor; assumption|simpl; f_equal; exact Hs].
  - exists []; split; [constructor|reflexivity].
Qed.


Lemma rstrip_spaces_app x w : all_space w -> rstrip (x ++ w) = rstrip x.
Proof.
  intros Hw; unfold rstrip; rewrite rev_app_distr, lstrip_spaces_app; [reflexivity|].
  unfold all_space in *; apply Forall_rev; exact Hw.
Qed.

Lemma rstrip_decomp s : exists w, all_space w /\ s = rstrip s ++ w.
Proof.
  destruct (lstrip_decomp (rev s)) as [w [Hw Hs]].
  exists (rev w); split; [unfold all_space in *; apply Forall_rev; exact Hw|].
  unfold rstrip; rewrite <- rev_app_distr, <- Hs, rev_involutive; reflexivity.
Qed.

Lemma strip_pad w1 x w2 : all_space w1 -> all_space w2 -> strip (w1 ++ x ++ w2) = strip x.
Proof.
  intros H1 H2; unfold strip; rewrite lstrip_spaces_app, lstrip_app by exact H1.
  destruct (lstrip x) as [|c r] eqn:Hx.
  - rewrite lstrip_all_space by exact H2; reflexivity.
  - apply rstrip_spaces_app; exact H2.
Qed.

Lemma strip_id c1 r z c2 :
  is_space c1 = false -> is_space c2 = false -> c1 :: r = z ++ [c2] ->
  strip (c1 :: r) = c1 :: r.
Proof.
  intros H1 H2 Heq; unfold strip, rstrip; simpl; rewrite H1.
  rewrite Heq, rev_app_distr; simpl; rewrite H2; simpl; rewrite rev_involutive; reflexivity.
Qed.









(** * Mock data source *)

Lemma is_prefix_app p r : is_prefix p (p ++ r) = true.
Proof. induction p as [|c p IH]; [reflexivity|]; simpl; rewrite Z.eqb_refl, IH; reflexivity. Qed.

Lemma contains_app_l a s p : contains s p = true -> contains (a ++ s) p = true.
Proof.
  induction a as [|c a IH]; intros H; [exact H|].
  simpl; rewrite IH by exact H; apply orb_true_r.
Qed.

Lemma contains_prefix p r : contains (p ++ r) p = true.
Proof. destruct p; simpl; [destruct r; reflexivity|]; rewrite Z.eqb_refl, is_prefix_app; reflexivity. Qed.

Lemma mock_image_url_strip b idx : strip (mock_image_url b idx) = mock_image_url b idx.
Proof.
  unfold mock_image_url.
  change (u "https://example.com/") with (104 :: u "ttps://example.com/").
  simpl app at 1.
  apply (strip_id 104 _ (104 :: u "ttps://example.com/" ++ b ++ u "/menu_" ++ str_digit idx ++ u ".jp")
                  103); [reflexivity|reflexivity|].
  simpl; rewrite <- !app_assoc; reflexivity.
Qed.

Lemma mock_image_url_placeholder b idx : is_placeholder_url (strip (mock_image_url b idx)) = true.
Proof.
  rewrite mock_image_url_strip; unfold is_placeholder_url, mock_image_url.
  change (u "https://example.com/") with (u "https://" ++ u "example.com" ++ u "/").
  rewrite <- !app_assoc, contains_app_l; [reflexivity|].
  apply contains_prefix.
Qed.

Lemma in_fetch_mock_deals today target_brands d :
  In d (fetch_mock_deals today target_brands) ->
  exists b idx preset, d = mock_deal today b idx preset.
Proof.
  unfold fetch_mock_deals; rewrite in_flat_map; intros [b [_ Hd]].
  apply in_map_iff in Hd as [[idx preset] [<- _]]; eauto.
Qed.

Lemma card_image_ops_placeholder fi cfg d top bottom :
  is_placeholder_url (strip (get_or (d_main_image_url d) [])) = true ->
  card_image_ops fi cfg d top bottom = [BrandGlyph (brand_glyph_text d) (card_accent cfg)].
Proof.
  intros H; unfold card_image_ops; cbv zeta; rewrite H, andb_false_r.
  unfold brand_glyph_text; destruct (strip (get_or (d_brand d) [])); reflexivity.
Qed.

Lemma card_loop_placeholder fi cfg ds : forall y,
  (forall d, In d ds -> is_placeholder_url (strip (get_or (d_main_image_url d) [])) = true) ->
  http_gets (card_loop fi cfg y ds) = [] /\
  length (brand_glyphs (card_loop fi cfg y ds)) = length (card_tops (card_loop fi cfg y ds)).
Proof.
  induction ds as [|d ds IH]; intros y H; [split; reflexivity|].
  simpl card_loop; destruct (y + card_height + 40 >? height); [split; reflexivity|].
  rewrite card_image_ops_placeholder by (apply H; left; reflexivity).
  destruct (IH (y + card_height + card_gap)) as [Hh Hg]; [intros; apply H; right; assumption|].
  unfold http_gets, brand_glyphs, card_tops in *; simpl.
  rewrite Hh; split; [reflexivity|]; simpl; rewrite Hg; reflexivity.
Qed.

(** C9: for every target brand list the mock source returns three records
    per brand in the given brand order (the three default brands when the
    list is empty, so never nothing); every record's image URL is on the
    example.com placeholder domain, so a card of mock data draws the brand
    glyph and no poster of mock deals fetches an image. *)
Theorem mock_deals_spec : forall today target_brands,
  let bs := brands_or_default target_brands in
  let ds := fetch_mock_deals today target_brands in
  map d_brand ds = flat_map (fun b => [Some b; Some b; Some b]) bs /\
  length ds = (3 * length bs)%nat /\
  ds <> [] /\
  (forall d, In d ds -> is_placeholder_url (strip (get_or (d_main_image_url d) [])) = true) /\
  (forall fi cfg d top bottom, In d ds ->
     card_image_ops fi cfg d top bottom = [BrandGlyph (brand_glyph_text d) (card_accent cfg)]) /\
  (forall bl fi t tc de sub theme bn ops, incl sub ds ->
     generate_poster_sync bl fi t tc de sub theme bn = Ok ops ->
     http_gets ops = [] /\ length (brand_glyphs ops) = length (card_tops ops)).
Proof.
  intros today target_brands bs ds.
  assert (Hph : forall d, In d ds -> is_placeholder_url (strip (get_or (d_main_image_url d) [])) = true).
  { intros d Hd; apply in_fetch_mock_deals in Hd as (b & idx & preset & ->).
    apply mock_image_url_placeholder. }
  assert (Hmap : map d_brand ds = flat_map (fun b => [Some b; Some b; Some b]) bs).
  { subst ds bs; unfold fetch_mock_deals.
    induction (brands_or_default target_brands) as [|b bs IH]; [reflexivity|].
    simpl; do 3 f_equal; exact IH. }
  split; [exact Hmap|].
  split.
  { rewrite <- (length_map d_brand), Hmap; clear.
    induction bs as [|b bs IH]; [reflexivity|].
    simpl length; rewrite IH; lia. }
  split.
  { subst ds; unfold fetch_mock_deals, brands_or_default.
    destruct target_brands; discriminate. }
  split; [exact Hph|].
  split; [intros; apply card_image_ops_placeholder, Hph; assumption|].
  intros bl fi t tc de sub theme bn ops Hsub Hops.
  apply generate_poster_sync_ok in Hops as (d0 & rest & -> & -> & _).
  destruct (card_loop_placeholder fi (resolve_theme theme) (d0 :: rest) (header_height + 40))
    as [Hh Hg]; [intros d Hd; apply Hph, Hsub, Hd|].
  unfold poster_ops; cbv zeta.
  set (L := card_loop _ _ _ _) in *.
  set (bg := match background_image_name _ with Some _ => _ | None => [] end).
  assert (Hbg : http_gets bg = [] /\ brand_glyphs bg = [] /\ card_tops bg = []).
  { subst bg; destruct (background_image_name _) as [[|c n]|]; try (repeat split; reflexivity).
    destruct (bl (c :: n)); repeat split; reflexivity. }
  destruct Hbg as (Hb1 & Hb2 & Hb3).
  rewrite !http_gets_app, !brand_glyphs_app, !card_tops_app, Hb1, Hb2, Hb3, Hh.
  split; [reflexivity|].
  rewrite !length_app, Hg; reflexivity.
Qed.

(** * Daily report *)

Lemma setdefault_append_nonempty k d m : setdefault_append k d m <> [].
Proof. destruct m as [|[k' ds] m]; simpl; [|destruct (pystr_eqb k k')]; discriminate. Qed.

Lemma setdefault_append_values k d m :
  Forall (fun p => snd p <> []) m -> Forall (fun p => snd p <> []) (setdefault_append k d m).
Proof.
  induction m as [|[k' ds] m IH]; intros H; simpl.
  - repeat constructor; discriminate.
  - inversion H as [|? ? Hh Ht]; subst.
    destruct (pystr_eqb k k'); constructor; auto.
    simpl; destruct ds; discriminate.
Qed.

Lemma fold_setdefault_inv deals : forall m,
  m <> [] /\ Forall (fun p => snd p <> []) m ->
  let m' := fold_left (fun m d => setdefault_append (deal_brand_key d) d m) deals m in
  m' <> [] /\ Forall (fun p => snd p <> []) m'.
Proof.
  induction deals as [|d deals IH]; intros m [Hne Hv]; [split; assumption|].
  simpl; apply IH; split; [apply setdefault_append_nonempty | apply setdefault_append_values, Hv].
Qed.

Lemma build_brand_map_cons d deals :
  exists k ds m', build_brand_map (d :: deals) = (k, ds) :: m' /\ ds <> [].
Proof.
  unfold build_brand_map; simpl.
  destruct (fold_setdefault_inv deals [(deal_brand_key d, [d])]) as [Hne Hv].
  { split; [discriminate | repeat constructor; discriminate]. }
  destruct (fold_left _ deals _) as [|[k ds] m']; [congruence|].
  inversion Hv; subst; eauto.
Qed.

Lemma fold_order_keeps l : forall acc x,
  In x acc \/ In x l ->
  In x (fold_left (fun acc b => if pystr_mem b acc then acc else acc ++ [b]) l acc).
Proof.
  induction l as [|b l IH]; intros acc x Hx; simpl.
  - destruct Hx as [Hx|[]]; exact Hx.
  - apply IH. destruct Hx as [Hx|[->|Hx]]; [|destruct (pystr_mem x acc) eqn:E|].
    + left; destruct (pystr_mem b acc); [|apply in_or_app]; auto.
    + left; apply pystr_mem_In, E.
    + left; apply in_or_app; right; left; reflexivity.
    + right; exact Hx.
Qed.

Lemma order_brands_keys target_brands m k :
  In k (map_keys m) -> In k (order_brands target_brands m).
Proof. intros H; unfold order_brands; apply fold_order_keeps; right; exact H. Qed.

Lemma visit_groups_nonempty m bs b ds :
  In b bs -> map_get b m = Some ds -> ds <> [] -> visit_groups m bs <> [].
Proof.
  induction bs as [|b0 bs IH]; intros Hin Hg Hds; [destruct Hin|].
  simpl; destruct (map_get b0 m) as [[|x l]|] eqn:E; try discriminate;
    (destruct Hin as [<-|Hin]; [congruence | apply IH; assumption]).
Qed.

Lemma group_deals_nonempty target_brands deals :
  deals <> [] -> group_deals target_brands deals <> [].
Proof.
  destruct deals as [|d deals]; [congruence|]; intros _.
  destruct (build_brand_map_cons d deals) as (k & ds & m' & Hm & Hds).
  unfold group_deals; rewrite Hm.
  apply (visit_groups_nonempty _ _ k ds); [|simpl; rewrite (proj2 (pystr_eqb_eq k k) eq_refl)|];
    auto.
  apply order_brands_keys; left; reflexivity.
Qed.

Section ReportLemmas.

Variable generate_poster : pystr -> list Deal -> Result pystr.

Lemma poster_loop_calls groups :
  poster_calls (fst (poster_loop generate_poster groups)) = groups.
Proof.
  induction groups as [|[b ds] groups IH]; [reflexivity|].
  simpl; destruct (poster_loop generate_poster groups) as [evs ps].
  destruct (generate_poster b ds); simpl in *; rewrite IH; reflexivity.
Qed.

Lemma poster_loop_failure_notice groups b ds e :
  In (b, ds) groups -> generate_poster b ds = Raise e ->
  In (TextToAll (poster_failed_msg b)) (fst (poster_loop generate_poster groups)).
Proof.
  induction groups as [|[b0 ds0] groups IH]; intros Hin Hg; [destruct Hin|].
  simpl; destruct (poster_loop generate_poster groups) as [evs ps] eqn:E.
  destruct Hin as [Heq|Hin].
  - injection Heq as <- <-; rewrite Hg; right; left; reflexivity.
  - specialize (IH Hin Hg); simpl in IH.
    destruct (generate_poster b0 ds0); right; [|right]; exact IH.
Qed.

Lemma poster_loop_none groups :
  snd (poster_loop generate_poster groups) = [] <->
  forall b ds, In (b, ds) groups -> exists e, generate_poster b ds = Raise e.
Proof.
  induction groups as [|[b0 ds0] groups IH]; simpl.
  - split; [intros _ b ds []|reflexivity].
  - destruct (poster_loop generate_poster groups) as [evs ps]; simpl in IH.
    destruct (generate_poster b0 ds0) as [p|e] eqn:E; simpl.
    + split; [discriminate|]. intros H.
      destruct (H b0 ds0 (or_introl eq_refl)) as [e He]; congruence.
    + rewrite IH; split.
      * intros H b ds [Heq|Hin]; [injection Heq as <- <-; eauto | auto].
      * intros H b ds Hin; auto.
Qed.

Lemma poster_failed_msg_not_all b : poster_failed_msg b <> ALL_FAILED_MSG.
Proof.
  unfold poster_failed_msg; intros H.
  destruct b as [|x [|y b]].
  - vm_compute in H; discriminate H.
  - apply (f_equal (@tl Z)) in H; vm_compute in H; discriminate H.
  - apply (f_equal (@length Z)) in H.
    cbn [app length] in H; rewrite length_app in H.
    assert (Hs : length (u " 今日快餐优惠海报生成失败，但数据已获取成功，请稍后在控制台查看日志。") = 35%nat)
      by reflexivity.
    assert (Ha : length ALL_FAILED_MSG = 36%nat) by reflexivity.
    rewrite Hs, Ha in H; lia.
Qed.

Lemma poster_loop_no_summary groups :
  ~ In (TextToAll ALL_FAILED_MSG) (fst (poster_loop generate_poster groups)).
Proof.
  induction groups as [|[b ds] groups IH]; [intros []|].
  simpl; destruct (poster_loop generate_poster groups) as [evs ps]; simpl in IH.
  destruct (generate_poster b ds); simpl.
  - intros [H|H]; [discriminate H | exact (IH H)].
  - intros [H|[H|H]]; [discriminate H | | exact (IH H)].
    injection H as H; exact (poster_failed_msg_not_all b H).
Qed.

End ReportLemmas.

(** C6: in a report run with target groups and a non-empty fetch, every
    brand group is handed to [generate_poster] in order whatever the earlier
    ones did (and there is at least one group); a group whose poster fails
    gets its own failure notice; the all-failed notice is sent exactly when
    every group's poster failed. *)
Theorem run_daily_report_isolation generate_poster target_groups target_brands deals :
  target_groups <> [] -> deals <> [] ->
  let G := group_deals target_brands deals in
  let tr := run_daily_report generate_poster target_groups target_brands (Ok deals) in
  G <> [] /\
  poster_calls tr = G /\
  (forall b ds e, In (b, ds) G -> generate_poster b ds = Raise e ->
     In (TextToAll (poster_failed_msg b)) tr) /\
  (In (TextToAll ALL_FAILED_MSG) tr <->
     forall b ds, In (b, ds) G -> exists e, generate_poster b ds = Raise e).
Proof.
  intros Htg Hd G tr.
  assert (HG : G <> []) by (apply group_deals_nonempty, Hd).
  assert (Htr : tr = let '(evs, posters) := poster_loop generate_poster G in
      match posters with
      | [] => evs ++ [TextToAll ALL_FAILED_MSG]
      | _ => evs ++ TextToAll INTRO_MSG :: map ImageToAll posters
      end).
  { unfold tr, run_daily_report.
    destruct target_groups; [congruence|]; destruct deals; [congruence|]; reflexivity. }
  pose proof (poster_loop_calls generate_poster G) as Hc.
  pose proof (poster_loop_none generate_poster G) as Hn.
  pose proof (poster_loop_failure_notice generate_poster G) as Hf.
  pose proof (poster_loop_no_summary generate_poster G) as Hs.
  clearbody tr; destruct (poster_loop generate_poster G) as [evs posters]; simpl in *.
  assert (Hcalls : forall l, poster_calls (evs ++ l) = G ++ poster_calls l).
  { intros l; unfold poster_calls at 1; rewrite flat_map_app; fold (poster_calls l).
    rewrite <- Hc; reflexivity. }
  assert (Himg : forall ps, poster_calls (map ImageToAll ps) = []).
  { induction ps; [reflexivity|assumption]. }
  split; [exact HG|].
  split.
  { subst tr; destruct posters as [|p ps]; rewrite Hcalls; simpl; [|rewrite Himg];
      apply app_nil_r. }
  split.
  { intros b ds e Hin Hg; subst tr; destruct posters; apply in_or_app; left; eauto. }
  rewrite <- Hn; subst tr; destruct posters as [|p ps]; split.
  - intros _; reflexivity.
  - intros _; apply in_or_app; right; left; reflexivity.
  - intros H; apply in_app_or in H as [H|[H|H]]; [contradiction | discriminate H |].
    apply in_map_iff in H as (x & Hx & _); discriminate Hx.
  - discriminate.
Qed.

(** The report with two groups, the first one failing: the second is still
    drawn and sent, and only the first brand's notice goes out. *)
Lemma run_daily_report_isolation_witness :
  let gp := fun (b : pystr) (_ : list Deal) =>
    if pystr_eqb b (u "A") then Raise (mkExc (u "OSError") []) else Ok (u "B.png") in
  let deals := [deal_of (u "A") (u "a1"); deal_of (u "B") (u "b1")] in
  [u "1"] <> [] /\ deals <> [] /\
  run_daily_report gp [u "1"] [] (Ok deals) =
    [GeneratePoster (u "A") [deal_of (u "A") (u "a1")];
     TextToAll (poster_failed_msg (u "A"));
     GeneratePoster (u "B") [deal_of (u "B") (u "b1")];
     TextToAll INTRO_MSG; ImageToAll (u "B.png")] /\
  group_deals [] deals <> [].
Proof.
  intros gp deals.
  assert (Hg : [u "1"] <> []) by discriminate.
  assert (Hd : deals <> []) by discriminate.
  split; [exact Hg|]; split; [exact Hd|]; split; [vm_compute; reflexivity|].
  exact (proj1 (run_daily_report_isolation gp [u "1"] [] deals Hg Hd)).
Defined.

(** * RSS de-duplication *)

Lemma bind_ok_r {A} (m : Result A) : (let* x := m in Ok x) = m.
Proof. destruct m; reflexivity. Qed.

Lemma key_eqb_eq k1 k2 : key_eqb k1 k2 = true <-> k1 = k2.
Proof.
  destruct k1 as [a1 b1], k2 as [a2 b2]; unfold key_eqb; simpl.
  rewrite andb_true_iff, !pystr_eqb_eq; split; [intros [-> ->]|intros H; injection H]; auto.
Qed.

Lemma key_mem_In k ks : key_mem k ks = true <-> In k ks.
Proof.
  unfold key_mem; rewrite existsb_exists; split.
  - intros [y [Hy Heq]]; apply key_eqb_eq in Heq; subst; auto.
  - intros H; exists k; split; auto; apply key_eqb_eq; auto.
Qed.

Lemma key_mem_app_cons k k' seen X :
  In k' seen -> key_mem k (seen ++ k' :: X) = key_mem k (seen ++ X).
Proof.
  intros H; apply Bool.eq_iff_eq_true; rewrite !key_mem_In, !in_app_iff; simpl.
  split; [intros [?|[<-|?]]|intros [?|?]]; auto.
Qed.

Lemma combine_seq_shift {A} (l : list A) : forall k n,
  combine l (seq (S k) n) = map (fun p => (fst p, S (snd p))) (combine l (seq k n)).
Proof.
  induction l as [|x l IH]; intros k [|n]; try reflexivity.
  simpl; rewrite IH; reflexivity.
Qed.

Lemma filter_map_comm {A B} (f : B -> bool) (g : A -> B) l :
  filter f (map g l) = map g (filter (fun x => f (g x)) l).
Proof. induction l as [|x l IH]; simpl; [|destruct (f (g x)); simpl; rewrite IH]; reflexivity. Qed.

Lemma keep_first_from_positions l : forall seen,
  keep_first_from seen l =
  map fst (filter (fun p => negb (key_mem (rss_key (fst p)) (seen ++ map rss_key (firstn (snd p) l))))
                  (combine l (seq 0 (length l)))).
Proof.
  induction l as [|d l IH]; intros seen; [reflexivity|].
  simpl length; rewrite <- cons_seq; simpl combine.
  rewrite combine_seq_shift; cbn [filter fst snd firstn map]; rewrite app_nil_r.
  rewrite filter_map_comm.
  cbn [keep_first_from].
  destruct (key_mem (rss_key d) seen) eqn:E; simpl; rewrite map_map, IH; simpl.
  - f_equal; apply filter_ext; intros [x i]; simpl.
    rewrite key_mem_app_cons; [reflexivity|apply key_mem_In, E].
  - do 2 f_equal; apply filter_ext; intros [x i]; simpl.
    rewrite <- app_assoc; reflexivity.
Qed.

Lemma keep_first_from_nil l : keep_first_from [] l = keep_first l.
Proof. rewrite keep_first_from_positions; reflexivity. Qed.

Lemma keep_first_from_app l1 : forall seen l2,
  keep_first_from seen (l1 ++ l2) =
  keep_first_from seen l1 ++ keep_first_from (seen ++ map rss_key (keep_first_from seen l1)) l2.
Proof.
  induction l1 as [|d l1 IH]; intros seen l2; simpl; [rewrite app_nil_r; reflexivity|].
  destruct (key_mem (rss_key d) seen); [apply IH|].
  rewrite IH, <- app_assoc; reflexivity.
Qed.

Lemma keep_first_from_NoDup l : forall seen,
  NoDup seen -> NoDup (seen ++ map rss_key (keep_first_from seen l)).
Proof.
  induction l as [|d l IH]; intros seen H; simpl; [rewrite app_nil_r; exact H|].
  destruct (key_mem (rss_key d) seen) eqn:E; [auto|].
  simpl; change (rss_key d :: ?X) with ([rss_key d] ++ X); rewrite app_assoc; apply IH.
  apply NoDup_app; [exact H | repeat constructor; intros [] |].
  intros k Hk [<-|[]]; apply key_mem_In in Hk; congruence.
Qed.

Section RssDedupe.

Variable today : pystr.
Variable extract_price : pystr -> option Q.
Variable rss_feed : pystr -> option (list XElem).
Variable target_brands : list pystr.

Lemma rss_items_candidates items : forall seen acc,
  rss_items today extract_price target_brands (seen, acc) items =
  let* cs := rss_item_candidates today extract_price target_brands items in
  Ok (seen ++ map rss_key (keep_first_from seen cs), acc ++ keep_first_from seen cs).
Proof.
  induction items as [|it items IH]; intros seen acc; simpl.
  - rewrite !app_nil_r; reflexivity.
  - unfold rss_item_step; destruct (rss_item_deal today extract_price target_brands it)
      as [[d|]|e]; simpl; [|rewrite bind_ok_r; apply IH|reflexivity].
    destruct (key_mem (rss_key d) seen) eqn:E; simpl; rewrite IH;
      destruct (rss_item_candidates _ _ _ _) as [cs|e]; simpl; try reflexivity.
    + rewrite E; reflexivity.
    + rewrite E, <- !app_assoc; reflexivity.
Qed.

Lemma rss_feeds_candidates urls : forall seen acc,
  rss_feeds today extract_price rss_feed target_brands (seen, acc) urls =
  let* cs := rss_feed_candidates today extract_price rss_feed target_brands urls in
  Ok (seen ++ map rss_key (keep_first_from seen cs), acc ++ keep_first_from seen cs).
Proof.
  induction urls as [|url urls IH]; intros seen acc; simpl; [rewrite !app_nil_r; reflexivity|].
  destruct (rss_feed url) as [items|]; [|apply IH].
  rewrite rss_items_candidates.
  destruct (rss_item_candidates _ _ _ _) as [cs1|e]; simpl; [|reflexivity].
  rewrite IH; destruct (rss_feed_candidates _ _ _ _ _) as [cs2|e]; simpl; [|reflexivity].
  rewrite keep_first_from_app, map_app, !app_assoc; reflexivity.
Qed.

End RssDedupe.

(** C10: across all feeds of one fetch, the records emitted are exactly the
    first occurrence of each [(brand, title[:80])] key among the records all
    items would give, in feed and item order, so no key is emitted twice;
    a later item with a key already seen is skipped even when it comes from
    another feed. *)
Theorem fetch_rss_dedupe_spec today extract_price rss_feed rss_urls target_brands :
  fetch_from_rss today extract_price rss_feed rss_urls target_brands =
    (let* cs := rss_candidates today extract_price rss_feed rss_urls target_brands in
     Ok (keep_first cs)) /\
  (forall ds, fetch_from_rss today extract_price rss_feed rss_urls target_brands = Ok ds ->
     NoDup (map rss_key ds)).
Proof.
  assert (Heq : fetch_from_rss today extract_price rss_feed rss_urls target_brands =
    (let* cs := rss_candidates today extract_price rss_feed rss_urls target_brands in
     Ok (keep_first cs))).
  { unfold fetch_from_rss, rss_candidates; rewrite rss_feeds_candidates.
    destruct (rss_feed_candidates _ _ _ _ _) as [cs|e]; simpl; [|reflexivity].
    rewrite keep_first_from_nil; reflexivity. }
  split; [exact Heq|].
  intros ds H; rewrite Heq in H.
  destruct (rss_candidates _ _ _ _ _) as [cs|e]; simpl in H; [|discriminate H].
  injection H as <-; rewrite <- keep_first_from_nil.
  apply (keep_first_from_NoDup cs []); constructor.
Qed.

(** Two feeds carrying the same 肯德基 item: both items give a record, the
    fetch keeps the first one only.  (Each field element has a child, so
    [item.find(tag)] is truthy and the path with [local-name()] is never
    compiled.) *)
Example fetch_rss_cross_feed_example :
  let field tag text := XE tag (Some text) None [XE (u "b") None None []] in
  let item := XE (u "item") None None
                 [field (u "title") (u "肯德基 疯狂星期四"); field (u "link") (u "http://x");
                  field (u "description") (u "限时 19.9元")] in
  let feed url := if pystr_eqb url (u "http://a") then Some [item]
                  else if pystr_eqb url (u "http://b") then Some [item] else None in
  match rss_candidates (u "2024-01-04") (fun _ => None) feed
          [u "http://a"; u " http://b "] [u "肯德基"] with
  | Ok cs => length cs = 2%nat | Raise _ => False end /\
  match fetch_from_rss (u "2024-01-04") (fun _ => None) feed
          [u "http://a"; u " http://b "] [u "肯德基"] with
  | Ok ds => length ds = 1%nat | Raise _ => False end.
Proof. vm_compute; split; reflexivity. Qed.

(** * Brand inference *)

Lemma is_prefix_spec p s : is_prefix p s = true <-> exists y, s = p ++ y.
Proof.
  revert s; induction p as [|c p IH]; intros [|d s]; simpl.
  - split; eauto.
  - split; eauto.
  - split; [discriminate|intros [y Hy]; discriminate Hy].
  - rewrite andb_true_iff, Z.eqb_eq, IH; split.
    + intros [-> [y ->]]; eauto.
    + intros [y Hy]; injection Hy as -> ->; eauto.
Qed.

Lemma contains_spec s p : contains s p = true <-> substring p s.
Proof.
  unfold substring; induction s as [|c s IH]; simpl.
  - rewrite orb_false_r, is_prefix_spec; split.
    + intros [y Hy]; exists [], y; exact Hy.
    + intros [x [y Hy]]; destruct x; [|discriminate]; destruct p; [|discriminate]; eauto.
  - rewrite orb_true_iff, is_prefix_spec, IH; split.
    + intros [[y Hy]|[x [y Hy]]]; [exists [], y; exact Hy|exists (c :: x), y; rewrite Hy; reflexivity].
    + intros [[|c' x] [y Hy]]; [left; eauto|right].
      injection Hy as -> ->; eauto.
Qed.

(** _infer_brand_from_text gives [b] exactly when the text is non-empty and
    [b] is the first non-empty configured brand occurring in it. *)
Theorem infer_brand_first_occurring text target_brands b :
  infer_brand text target_brands = Some b <->
  text <> [] /\
  exists pre post, target_brands = pre ++ b :: post /\ b <> [] /\ substring b text /\
    forall b', In b' pre -> b' = [] \/ ~ substring b' text.
Proof.
  unfold infer_brand.
  assert (Hfind : forall l, find (fun b => nonempty b && contains text b) l = Some b <->
      exists pre post, l = pre ++ b :: post /\ b <> [] /\ substring b text /\
        forall b', In b' pre -> b' = [] \/ ~ substring b' text).
  { induction l as [|b0 l IH]; simpl.
    - split; [discriminate|intros (pre & post & H & _); destruct pre; discriminate H].
    - destruct (nonempty b0 && contains text b0) eqn:E.
      + apply andb_true_iff in E as [E1 E2]; apply contains_spec in E2.
        split.
        * intros H; injection H as <-; exists [], l.
          split; [reflexivity|]; split; [destruct b0; discriminate|].
          split; [exact E2|intros _ []].
        * intros ([|b1 pre] & post & H & Hne & Hs & Hpre); injection H as -> H;
            [reflexivity|].
          destruct (Hpre b1 (or_introl eq_refl)) as [->|Hn]; [discriminate E1|contradiction].
      + rewrite IH; split.
        * intros (pre & post & -> & Hne & Hs & Hpre); exists (b0 :: pre), post.
          split; [reflexivity|]; split; [exact Hne|]; split; [exact Hs|].
          intros b' [<-|Hb']; [|apply Hpre, Hb'].
          destruct b0; [left; reflexivity|right; intros Hc; apply contains_spec in Hc].
          simpl in E; congruence.
        * intros ([|b1 pre] & post & H & Hne & Hs & Hpre); injection H as -> H.
          -- apply contains_spec in Hs; destruct b; [congruence|simpl in E; congruence].
          -- exists pre, post; split; [exact H|]; split; [exact Hne|]; split; [exact Hs|].
             intros b' Hb'; apply Hpre; right; exact Hb'. }
  destruct text as [|c text]; [split; [discriminate|intros [[] _]; reflexivity]|].
  destruct target_brands as [|b0 l].
  - split; [discriminate|intros (_ & pre & post & H & _); destruct pre; discriminate H].
  - rewrite Hfind; split; [intros H; split; [discriminate|exact H]|intros [_ H]; exact H].
Qed.

(** * Delivery *)

(** Two group ids give the same message origin exactly when they agree
    after [strip()]. *)
Theorem build_group_origin_same text1 text2 :
  build_group_origin text1 = build_group_origin text2 <-> strip text1 = strip text2.
Proof.
  unfold build_group_origin; split; [apply app_inv_head|intros ->; reflexivity].
Qed.

(** _send_text_to_all sends the text once to every configured group, in
    order, whatever the earlier sends did, and logs an error for exactly the
    groups whose send raised. *)
Theorem send_text_to_all_each_group send_ok groups text :
  sent_chains (send_text_to_all send_ok groups text) =
    map (fun g => (build_group_origin g, [CText text])) groups /\
  error_groups (send_text_to_all send_ok groups text) =
    filter (fun g => negb (send_ok (build_group_origin g) [CText text])) groups.
Proof.
  induction groups as [|g groups [IH1 IH2]]; [split; reflexivity|].
  unfold send_text_to_all, sent_chains, error_groups in *; simpl.
  rewrite !flat_map_app, IH1, IH2; unfold send_text_one.
  destruct (send_ok _ _); split; reflexivity.
Qed.

(** _send_image_to_all makes one image send per configured group, in order
    (with the caption in front when there is a non-empty one), and one
    fallback text send for exactly the groups whose image send raised. *)
Theorem send_image_to_all_each_group send_ok groups path intro :
  let chain := match intro with
               | Some ((_ :: _) as t) => [CText t; CImage path]
               | _ => [CImage path]
               end in
  filter (fun oc => has_image (snd oc)) (sent_chains (send_image_to_all send_ok groups path intro)) =
    map (fun g => (build_group_origin g, chain)) groups /\
  filter (fun oc => negb (has_image (snd oc)))
         (sent_chains (send_image_to_all send_ok groups path intro)) =
    map (fun g => (build_group_origin g, [CText (format_opt intro ++ IMAGE_FALLBACK_SUFFIX)]))
        (filter (fun g => negb (send_ok (build_group_origin g) chain)) groups).
Proof.
  intros chain.
  assert (Hc : has_image chain = true) by (subst chain; destruct intro as [[|c t]|]; reflexivity).
  set (fb := [CText (format_opt intro ++ IMAGE_FALLBACK_SUFFIX)]).
  assert (Hone : forall g, send_image_one send_ok path intro g =
    let origin := build_group_origin g in
    if send_ok origin chain then [Sent origin chain true]
    else [Sent origin chain false; LogError (u "image") g]
         ++ (if send_ok origin fb then [Sent origin fb true]
             else [Sent origin fb false; LogError (u "fallback text") g])).
  { intros g; subst chain fb; destruct intro as [[|c t]|]; reflexivity. }
  induction groups as [|g groups [IH1 IH2]]; [split; reflexivity|].
  unfold send_image_to_all, sent_chains in *; simpl.
  rewrite !flat_map_app, !filter_app, IH1, IH2, Hone; cbv zeta.
  assert (Hfb : has_image fb = false) by reflexivity.
  destruct (send_ok (build_group_origin g) chain) eqn:E;
    [|destruct (send_ok (build_group_origin g) fb)];
    cbn [flat_map app filter snd]; rewrite ?Hc, ?Hfb; cbn [negb filter app map];
    split; reflexivity.
Qed.

(** * Themes and file names *)

(** The poster theme of a day: the Crazy Thursday colours and title on a
    Thursday (weekday 3), the default theme on every other day. *)
Theorem theme_for_weekday weekday :
  resolve_theme (get_theme_for_today weekday) =
  if weekday =? 3 then CRAZY_THURSDAY_THEME else DEFAULT_THEME.
Proof. unfold get_theme_for_today; destruct (weekday =? 3); reflexivity. Qed.

Lemma filter_app_cons_drop {A} (f : A -> bool) x c y :
  f c = false -> filter f (x ++ c :: y) = filter f (x ++ y).
Proof. intros H; rewrite !filter_app; simpl; rewrite H; reflexivity. Qed.

(** When [str.isalnum] holds for the letters of "brand", the file-name part
    is never empty, holds only alphanumeric characters and is left as it is
    by a second pass. *)
Theorem sanitize_brand_alnum isalnum :
  forallb isalnum (u "brand") = true ->
  forall brand, let s := sanitize_brand_for_filename isalnum brand in
  s <> [] /\ forallb isalnum s = true /\ sanitize_brand_for_filename isalnum s = s.
Proof.
  intros Hb brand s.
  assert (Hs : s = u "brand" \/ (s = filter isalnum brand /\ s <> [])).
  { subst s; unfold sanitize_brand_for_filename, str_or.
    destruct brand; [left; reflexivity|].
    destruct (filter isalnum _) eqn:E; [left; reflexivity|right; split; [reflexivity|discriminate]]. }
  assert (Hall : forallb isalnum s = true).
  { destruct Hs as [->|[-> _]]; [exact Hb|].
    apply forallb_forall; intros c Hc; apply filter_In in Hc; apply Hc. }
  assert (Hne : s <> []) by (destruct Hs as [->|[_ H]]; [discriminate|exact H]).
  repeat split; try assumption.
  unfold sanitize_brand_for_filename at 1.
  assert (Hf : filter isalnum s = s).
  { clear Hs Hne; induction s as [|c s IH]; [reflexivity|].
    simpl in *; apply andb_true_iff in Hall as [H1 H2]; rewrite H1, IH; auto. }
  rewrite Hf; destruct s; [congruence|reflexivity].
Qed.

(** Characters that are not alphanumeric never reach the file name: brand
    names that differ by such a character (a space, a dash, a dot) get the
    same poster path, so their posters overwrite each other. *)
Theorem poster_path_ignores_non_alnum isalnum date x c y :
  isalnum c = false ->
  poster_out_path isalnum date (x ++ c :: y) = poster_out_path isalnum date (x ++ y).
Proof.
  intros H; unfold poster_out_path, sanitize_brand_for_filename.
  rewrite filter_app_cons_drop by exact H.
  destruct x as [|a x]; [destruct y|]; reflexivity.
Qed.

Lemma poster_path_ignores_non_alnum_witness :
  (fun c => negb (c =? 45)) 45 = false /\
  poster_out_path (fun c => negb (c =? 45)) (u "20240104") (u "K" ++ 45 :: u "FC")
  = poster_out_path (fun c => negb (c =? 45)) (u "20240104") (u "K" ++ u "FC").
Proof.
  split; [reflexivity|].
  apply (poster_path_ignores_non_alnum (fun c => negb (c =? 45))); reflexivity.
Defined.

Lemma sanitize_brand_alnum_witness :
  forallb (fun c => negb (is_space c)) (u "brand") = true /\
  sanitize_brand_for_filename (fun c => negb (is_space c)) (u "麦当劳 M") <> [].
Proof.
  split; [reflexivity|].
  exact (proj1 (sanitize_brand_alnum (fun c => negb (is_space c)) eq_refl (u "麦当劳 M"))).
Defined.

(** * The chat command *)

(** When the fetch gives deals, the command first replies with the intro
    line (even if every poster then fails), then calls [generate_poster]
    once per brand group, in order, and gives exactly one reply per group:
    the poster image, or that brand's failure line. *)
Theorem cmd_report_each_group generate_poster target_brands deals :
  deals <> [] ->
  let G := group_deals target_brands deals in
  let evs := cmd_fastfood_report generate_poster target_brands (Ok deals) in
  G <> [] /\
  cmd_calls evs = G /\
  cmd_replies evs =
    PlainResult INTRO_MSG
    :: map (fun '(b, ds) => match generate_poster b ds with
                            | Ok p => ImageResult p
                            | Raise _ => PlainResult (CMD_POSTER_FAILED_MSG b)
                            end) G.
Proof.
  intros Hd G evs.
  assert (He : evs = PlainResult INTRO_MSG :: flat_map (fun '(brand, brand_deals) =>
                   CmdGeneratePoster brand brand_deals
                   :: match generate_poster brand brand_deals with
                      | Ok poster_path => [ImageResult poster_path]
                      | Raise _ => [PlainResult (CMD_POSTER_FAILED_MSG brand)]
                      end) G).
  { unfold evs, cmd_fastfood_report; destruct deals; [congruence|reflexivity]. }
  split; [apply group_deals_nonempty, Hd|].
  rewrite He; clear He evs; unfold cmd_calls, cmd_replies.
  induction G as [|[b ds] G [IH1 IH2]]; [split; reflexivity|].
  simpl; destruct (generate_poster b ds); simpl; simpl in IH1, IH2;
    rewrite IH1; injection IH2 as IH2; rewrite IH2; split; reflexivity.
Qed.

Lemma cmd_report_each_group_witness :
  let gp := fun (b : pystr) (_ : list Deal) =>
    if pystr_eqb b (u "A") then Raise (mkExc (u "OSError") []) else Ok (u "B.png") in
  [deal_of (u "A") (u "a1"); deal_of (u "B") (u "b1")] <> [] /\
  cmd_replies (cmd_fastfood_report gp [] (Ok [deal_of (u "A") (u "a1"); deal_of (u "B") (u "b1")]))
  = [PlainResult INTRO_MSG; PlainResult (CMD_POSTER_FAILED_MSG (u "A")); ImageResult (u "B.png")].
Proof.
  intros gp.
  assert (Hd : [deal_of (u "A") (u "a1"); deal_of (u "B") (u "b1")] <> []) by discriminate.
  split; [exact Hd|].
  rewrite (proj2 (proj2 (cmd_report_each_group gp [] _ Hd))); vm_compute; reflexivity.
Defined.

(** * Choosing the data source *)

Lemma fetch_mock_deals_nonempty today bs : fetch_mock_deals today bs <> [].
Proof.
  unfold fetch_mock_deals, brands_or_default.
  destruct bs as [|b bs]; simpl; discriminate.
Qed.

(** fetch_today_deals returns the built-in deals of the configured brands
    (the three default ones when none is configured), never an empty list,
    unless the source is "rss" with a non-empty URL list or "api" with an
    [http] URL; the source name is read with surrounding spaces removed, in
    any case, and "mock" when it is empty. *)
Theorem fetch_today_deals_mock_fallback today extract_price rss_feed api_deals
    target_brands data_source rss_urls api_url api_method :
  let source := lower_ascii (strip (str_or data_source (u "mock"))) in
  (source = u "rss" -> get_or_list rss_urls = []) ->
  (source = u "api" -> nonempty api_url && is_prefix (u "http") (strip api_url) = false) ->
  fetch_today_deals today extract_price rss_feed api_deals target_brands data_source rss_urls
    api_url api_method = Ok (fetch_mock_deals today (brands_or_default target_brands)) /\
  fetch_mock_deals today (brands_or_default target_brands) <> [].
Proof.
  intros source Hr Ha; split; [|apply fetch_mock_deals_nonempty].
  unfold fetch_today_deals; fold source.
  destruct (pystr_eqb source (u "rss")) eqn:E1.
  - apply pystr_eqb_eq in E1; rewrite (Hr E1); reflexivity.
  - destruct (pystr_eqb source (u "api")) eqn:E2; [|reflexivity].
    apply pystr_eqb_eq in E2; rewrite (Ha E2); reflexivity.
Qed.

Lemma fetch_today_deals_mock_fallback_witness :
  let source := lower_ascii (strip (str_or (u " API ") (u "mock"))) in
  (source = u "rss" -> get_or_list None = []) /\
  (source = u "api" -> nonempty (u "ftp://x") && is_prefix (u "http") (strip (u "ftp://x")) = false) /\
  fetch_today_deals (u "2024-01-04") (fun _ => None) (fun _ => None) (fun _ _ _ => Ok [])
    [] (u " API ") None (u "ftp://x") (u "get")
  = Ok (fetch_mock_deals (u "2024-01-04") DEFAULT_BRANDS).
Proof.
  intros source.
  assert (Hr : source = u "rss" -> get_or_list None = []) by (intros; reflexivity).
  assert (Ha : source = u "api" ->
    nonempty (u "ftp://x") && is_prefix (u "http") (strip (u "ftp://x")) = false)
    by (intros; reflexivity).
  split; [exact Hr|]; split; [exact Ha|].
  exact (proj1 (fetch_today_deals_mock_fallback (u "2024-01-04") (fun _ => None) (fun _ => None)
    (fun _ _ _ => Ok []) [] (u " API ") None (u "ftp://x") (u "get") Hr Ha)).
Defined.

(** * RSS records *)

Lemma infer_brand_some text bs b :
  infer_brand text bs = Some b -> In b bs /\ b <> [].
Proof.
  unfold infer_brand; destruct text; [discriminate|]; destruct bs as [|b0 bs]; [discriminate|].
  intros H; destruct (find_some _ _ H) as [Hin Hb].
  apply andb_true_iff in Hb as [Hb _]; split; [exact Hin|destruct b; discriminate].
Qed.

Lemma rss_item_deal_shape today extract_price target_brands item d :
  rss_item_deal today extract_price target_brands item = Ok (Some d) ->
  exists b t, d_brand d = Some b /\ In b target_brands /\ b <> [] /\
    d_title d = Some t /\ t <> [] /\ (length t <= 80)%nat /\
    d_date d = Some today /\ d_category d = Some (u "RSS 优惠") /\ d_main_image_url d = Some [].
Proof.
  unfold rss_item_deal.
  destruct (or_else (item_text item (u "title") None) (item_text item (u "title") (Some ATOM_NS)))
    as [title|e]; cbn [bind]; [|discriminate].
  destruct title as [|c title]; [discriminate|].
  destruct (or_else (item_text item (u "link") None) (item_text item (u "link") (Some ATOM_NS)))
    as [link|e]; cbn [bind]; [|discriminate].
  destruct (or_else (item_text item (u "description") None)
                    (item_text item (u "summary") (Some ATOM_NS))) as [desc0|e]; cbn [bind];
    [|discriminate].
  match goal with |- context [infer_brand ?t target_brands] =>
    destruct (infer_brand t target_brands) as [b|] eqn:Hb; [|discriminate] end.
  intros H; injection H as <-; apply infer_brand_some in Hb as [Hin Hne].
  exists b, (slice_to 80 (c :: title)); cbn [d_brand d_title d_date d_category d_main_image_url].
  split; [reflexivity|]; split; [exact Hin|]; split; [exact Hne|]; split; [reflexivity|].
  split; [unfold slice_to; simpl; discriminate|].
  split; [unfold slice_to; rewrite length_firstn; lia|].
  split; [reflexivity|]; split; reflexivity.
Qed.

Lemma rss_item_candidates_from today extract_price target_brands items : forall cs,
  rss_item_candidates today extract_price target_brands items = Ok cs ->
  forall d, In d cs -> exists item, In item items /\
    rss_item_deal today extract_price target_brands item = Ok (Some d).
Proof.
  induction items as [|it items IH]; intros cs H d Hd; simpl in H.
  - injection H as <-; destruct Hd.
  - destruct (rss_item_deal _ _ _ it) as [od|e] eqn:E; simpl in H; [|discriminate].
    destruct (rss_item_candidates _ _ _ items) as [cs'|e]; simpl in H; [|discriminate].
    injection H as <-.
    destruct od as [d'|]; [destruct Hd as [<-|Hd]|].
    + exists it; split; [left; reflexivity|exact E].
    + destruct (IH cs' eq_refl d Hd) as (item & Hi & Hdi); exists item; split; [right|]; assumption.
    + destruct (IH cs' eq_refl d Hd) as (item & Hi & Hdi); exists item; split; [right|]; assumption.
Qed.

Lemma rss_feed_candidates_from today extract_price rss_feed target_brands urls : forall cs,
  rss_feed_candidates today extract_price rss_feed target_brands urls = Ok cs ->
  forall d, In d cs -> exists item, rss_item_deal today extract_price target_brands item = Ok (Some d).
Proof.
  induction urls as [|url urls IH]; intros cs H d Hd; simpl in H.
  - injection H as <-; destruct Hd.
  - destruct (rss_feed url) as [items|]; [|exact (IH cs H d Hd)].
    destruct (rss_item_candidates _ _ _ items) as [cs1|e] eqn:E1; simpl in H; [|discriminate].
    destruct (rss_feed_candidates _ _ _ _ urls) as [cs2|e] eqn:E2; simpl in H; [|discriminate].
    injection H as <-; apply in_app_or in Hd as [Hd|Hd].
    + destruct (rss_item_candidates_from _ _ _ _ _ E1 d Hd) as (item & _ & Hi); eauto.
    + exact (IH cs2 eq_refl d Hd).
Qed.

Lemma keep_first_from_incl l : forall seen d, In d (keep_first_from seen l) -> In d l.
Proof.
  induction l as [|x l IH]; intros seen d Hd; [destruct Hd|]; simpl in Hd.
  destruct (key_mem (rss_key x) seen); [right; eapply IH; eassumption|].
  destruct Hd as [<-|Hd]; [left; reflexivity|right; eapply IH; eassumption].
Qed.

(** With the source "rss" and a non-empty URL list, every record
    fetch_today_deals returns names one of the configured brands (one of the
    three default brands when none is configured) as its brand, has a
    non-empty title of at most 80 characters, today's date, the category
    "RSS 优惠" and an empty image URL. *)
Theorem fetch_today_deals_rss_records today extract_price rss_feed api_deals
    target_brands data_source rss_urls api_url api_method ds :
  lower_ascii (strip (str_or data_source (u "mock"))) = u "rss" ->
  get_or_list rss_urls <> [] ->
  fetch_today_deals today extract_price rss_feed api_deals target_brands data_source rss_urls
    api_url api_method = Ok ds ->
  forall d, In d ds -> exists b t, d_brand d = Some b /\ In b (brands_or_default target_brands) /\
    b <> [] /\ d_title d = Some t /\ t <> [] /\ (length t <= 80)%nat /\
    d_date d = Some today /\ d_category d = Some (u "RSS 优惠") /\ d_main_image_url d = Some [].
Proof.
  intros Hs Hu H d Hd.
  unfold fetch_today_deals in H; rewrite Hs in H; simpl in H.
  destruct (get_or_list rss_urls) as [|url urls] eqn:Eu; [congruence|].
  rewrite <- Eu in H.
  unfold fetch_from_rss in H; rewrite rss_feeds_candidates in H.
  destruct (rss_feed_candidates _ _ _ _ _) as [cs|e] eqn:Ec; simpl in H; [|discriminate].
  injection H as <-.
  apply keep_first_from_incl in Hd.
  destruct (rss_feed_candidates_from _ _ _ _ _ cs Ec d Hd) as (item & Hi).
  exact (rss_item_deal_shape _ _ _ _ _ Hi).
Qed.

Lemma fetch_today_deals_rss_records_witness :
  let leaf := XE (u "b") None None [] in
  let item := XE (u "item") None None
    [XE (u "title") (Some (u " 肯德基 疯狂星期四 ")) None [leaf];
     XE (u "link") None (Some (u "https://rss.example/1")) [leaf];
     XE (u "description") (Some (u "全家桶 ¥59.9")) None [leaf]] in
  let feed := fun _ : pystr => Some [item] in
  let r := fetch_today_deals (u "2024-01-04") (fun _ => None) feed (fun _ _ _ => Ok []) []
             (u " RSS") (Some [u "https://rss.example/feed"]) [] [] in
  lower_ascii (strip (str_or (u " RSS") (u "mock"))) = u "rss" /\
  get_or_list (Some [u "https://rss.example/feed"]) <> [] /\
  match r with
  | Ok (d :: _) => exists b t, d_brand d = Some b /\ In b (brands_or_default []) /\
      b <> [] /\ d_title d = Some t /\ t <> [] /\ (length t <= 80)%nat /\
      d_date d = Some (u "2024-01-04") /\ d_category d = Some (u "RSS 优惠") /\
      d_main_image_url d = Some []
  | _ => False
  end.
Proof.
  intros leaf item feed r.
  assert (H1 : lower_ascii (strip (str_or (u " RSS") (u "mock"))) = u "rss") by reflexivity.
  assert (H2 : get_or_list (Some [u "https://rss.example/feed"]) <> []) by discriminate.
  split; [exact H1|]; split; [exact H2|].
  assert (Hr : exists ds, r = Ok ds /\ ds <> [])
    by (eexists; split; [reflexivity|vm_compute; discriminate]).
  destruct Hr as [ds [Hr Hne]]; rewrite Hr; destruct ds as [|d ds]; [congruence|].
  unfold r in Hr.
  exact (fetch_today_deals_rss_records _ _ _ _ _ _ _ _ _ (d :: ds) H1 H2 Hr d (or_introl eq_refl)).
Defined.

(** * RSS items without a title element that has children *)

Lemma item_text_raises item tag ns e :
  item_text item tag ns = Raise e -> e = INVALID_PREDICATE.
Proof.
  unfold item_text; destruct ns as [ns|].
  - simpl; destruct (find_child _ _) as [el|]; [|discriminate].
    destruct (_ && _); discriminate.
  - destruct (find_child item tag) as [el|]; [destruct (xe_truthy el)|]; simpl;
      [destruct (_ && _); discriminate|congruence|congruence].
Qed.

Lemma or_else_raises a b e :
  (forall e', a = Raise e' -> e' = INVALID_PREDICATE) ->
  (forall e', b = Raise e' -> e' = INVALID_PREDICATE) ->
  or_else a b = Raise e -> e = INVALID_PREDICATE.
Proof.
  intros Ha Hb; unfold or_else; destruct a as [x|e']; simpl; [|intros H; injection H as <-; auto].
  destruct x; [apply Hb|discriminate].
Qed.

Lemma rss_item_deal_raises today extract_price target_brands item e :
  rss_item_deal today extract_price target_brands item = Raise e -> e = INVALID_PREDICATE.
Proof.
  unfold rss_item_deal.
  destruct (or_else (item_text item (u "title") None) (item_text item (u "title") (Some ATOM_NS)))
    as [title|e1] eqn:E1; cbn [bind];
    [|intros H; injection H as <-; eapply or_else_raises; [| |exact E1]; apply item_text_raises].
  destruct title as [|c title]; [discriminate|].
  destruct (or_else (item_text item (u "link") None) (item_text item (u "link") (Some ATOM_NS)))
    as [link|e2] eqn:E2; cbn [bind];
    [|intros H; injection H as <-; eapply or_else_raises; [| |exact E2]; apply item_text_raises].
  destruct (or_else (item_text item (u "description") None)
                    (item_text item (u "summary") (Some ATOM_NS))) as [desc0|e3] eqn:E3; cbn [bind];
    [|intros H; injection H as <-; eapply or_else_raises; [| |exact E3]; apply item_text_raises].
  match goal with |- context [infer_brand ?t target_brands] =>
    destruct (infer_brand t target_brands); discriminate end.
Qed.

Lemma rss_items_raises today extract_price target_brands items : forall st e,
  rss_items today extract_price target_brands st items = Raise e -> e = INVALID_PREDICATE.
Proof.
  induction items as [|it items IH]; intros [seen acc] e H; simpl in H; [discriminate|].
  unfold rss_item_step in H.
  destruct (rss_item_deal _ _ _ it) as [od|e'] eqn:E; simpl in H.
  - destruct od as [d|]; [destruct (key_mem _ _)|]; simpl in H; eapply IH; exact H.
  - injection H as <-; eapply rss_item_deal_raises; exact E.
Qed.

Lemma rss_items_bad_item today extract_price target_brands items item : forall st,
  In item items ->
  (exists e, rss_item_deal today extract_price target_brands item = Raise e) ->
  rss_items today extract_price target_brands st items = Raise INVALID_PREDICATE.
Proof.
  induction items as [|it items IH]; intros [seen acc] Hin [e He]; [destruct Hin|]; simpl.
  unfold rss_item_step.
  destruct Hin as [->|Hin].
  - rewrite He; simpl; f_equal; eapply rss_item_deal_raises; exact He.
  - destruct (rss_item_deal _ _ _ it) as [od|e'] eqn:E; simpl.
    + destruct od as [d|]; [destruct (key_mem _ _)|]; simpl; apply IH; eauto.
    + f_equal; eapply rss_item_deal_raises; exact E.
Qed.

Lemma title_leaf_raises today extract_price target_brands item :
  match find_child item (u "title") with Some e => xe_truthy e = false | None => True end ->
  exists e, rss_item_deal today extract_price target_brands item = Raise e.
Proof.
  intros H; unfold rss_item_deal, or_else, item_text.
  destruct (find_child item (u "title")) as [el|]; [rewrite H|]; simpl; eauto.
Qed.

(** A feed that downloads and parses, holding an item whose <title> element
    is missing or has no child elements (as in a plain RSS 2.0 item) makes
    the whole RSS fetch raise SyntaxError: [item.find(".//*[local-name()='title']")]
    is evaluated for it, ElementTree refuses the predicate, and no [try]
    around the item loop catches it. *)
Theorem fetch_rss_title_leaf_raises today extract_price rss_feed rss_urls target_brands
    url items item :
  In url (valid_rss_urls rss_urls) -> rss_feed url = Some items -> In item items ->
  match find_child item (u "title") with Some e => xe_truthy e = false | None => True end ->
  fetch_from_rss today extract_price rss_feed rss_urls target_brands = Raise INVALID_PREDICATE.
Proof.
  intros Hu Hf Hi Ht; unfold fetch_from_rss.
  assert (Hbad := title_leaf_raises today extract_price target_brands item Ht).
  generalize (@nil RssKey, @nil Deal).
  induction (valid_rss_urls rss_urls) as [|url0 urls IH]; [destruct Hu|]; intros st; simpl.
  destruct Hu as [->|Hu].
  - rewrite Hf, (rss_items_bad_item _ _ _ _ item st Hi Hbad); reflexivity.
  - destruct (rss_feed url0) as [items0|]; [|apply IH, Hu].
    destruct (rss_items _ _ _ st items0) as [st'|e] eqn:E; simpl; [apply IH, Hu|].
    f_equal; eapply rss_items_raises; exact E.
Qed.

Lemma fetch_rss_title_leaf_raises_witness :
  let item := XE (u "item") None None [XE (u "title") (Some (u "肯德基 疯狂星期四 ¥50")) None []] in
  let feed := fun url : pystr => if pystr_eqb url (u "https://rss.example/feed") then Some [item] else None in
  In (u "https://rss.example/feed") (valid_rss_urls [u " https://rss.example/feed"]) /\
  feed (u "https://rss.example/feed") = Some [item] /\ In item [item] /\
  fetch_from_rss (u "2024-01-04") (fun _ => None) feed [u " https://rss.example/feed"] [u "肯德基"]
    = Raise INVALID_PREDICATE.
Proof.
  intros item feed.
  assert (H1 : In (u "https://rss.example/feed") (valid_rss_urls [u " https://rss.example/feed"]))
    by (vm_compute; left; reflexivity).
  assert (H2 : feed (u "https://rss.example/feed") = Some [item]) by reflexivity.
  assert (H3 : In item [item]) by (left; reflexivity).
  split; [exact H1|]; split; [exact H2|]; split; [exact H3|].
  apply (fetch_rss_title_leaf_raises _ _ _ _ _ _ _ item H1 H2 H3); reflexivity.
Defined.

(** * Image downloads of the poster *)

Lemma card_image_ops_gets fi cfg d top bottom :
  http_gets (card_image_ops fi cfg d top bottom) =
    filter downloads_image [card_image_url d] /\
  card_deals (card_image_ops fi cfg d top bottom) = [].
Proof.
  change (filter downloads_image [card_image_url d]) with
    (if downloads_image (card_image_url d) then [card_image_url d] else []).
  unfold card_image_ops, card_image_url, downloads_image; cbv zeta.
  destruct (is_prefix (u "http") (strip (get_or (d_main_image_url d) [])) &&
            negb (is_placeholder_url (strip (get_or (d_main_image_url d) [])))).
  - destruct (fi (strip (get_or (d_main_image_url d) []))) as [[pw ph]|];
      repeat match goal with |- context [if ?b then _ else _] => destruct b end;
      rewrite http_gets_app, card_deals_app; split; reflexivity.
  - split; reflexivity.
Qed.

Lemma card_loop_gets fi cfg ds : forall y,
  http_gets (card_loop fi cfg y ds) =
    filter downloads_image (map card_image_url (card_deals (card_loop fi cfg y ds))).
Proof.
  induction ds as [|d ds IH]; intros y; [reflexivity|].
  cbn [card_loop]; destruct (y + card_height + 40 >? height); [reflexivity|].
  destruct (card_image_ops_gets fi cfg d y (y + card_height)) as [Hg Hd].
  rewrite !http_gets_app, !card_deals_app, Hg, Hd, IH.
  cbn [http_gets card_deals flat_map app map].
  cbn [filter]; destruct (downloads_image (card_image_url d)); reflexivity.
Qed.

(** A rendered poster downloads one image per shown card whose stripped
    [main_image_url] starts with "http" and contains neither "example.com"
    nor "example.org", in card order, and downloads nothing else. *)
Theorem poster_downloads_per_card bl fi t tc de deals theme brand_name ops :
  generate_poster_sync bl fi t tc de deals theme brand_name = Ok ops ->
  http_gets ops = filter downloads_image (map card_image_url (card_deals ops)).
Proof.
  intros H; apply generate_poster_sync_ok in H as (d0 & ds & -> & -> & _).
  unfold poster_ops; cbv zeta.
  pose proof (card_loop_gets fi (resolve_theme theme) (d0 :: ds) (header_height + 40)) as HL.
  set (L := card_loop fi (resolve_theme theme) (header_height + 40) (d0 :: ds)) in *.
  clearbody L.
  unfold http_gets, card_deals in *.
  rewrite !flat_map_app; cbn [flat_map app].
  destruct (background_image_name (resolve_theme theme)) as [[|c n]|];
    [| destruct (bl (c :: n))|]; cbn [flat_map app]; rewrite ?flat_map_app, ?app_nil_r; exact HL.
Qed.

Lemma poster_downloads_per_card_witness :
  let d1 := deal_of (u "肯德基") (u "全家桶") in
  let d2 := {| d_date := None; d_brand := Some (u "麦当劳"); d_title := None; d_category := None;
               d_price := None; d_origin_price := None; d_tag := None; d_activity := None;
               d_desc := None; d_main_image_url := Some (u " https://img.example.net/a.png ") |} in
  let ops := match generate_poster_sync (fun _ => false) (fun _ => None) (u "2024-01-04")
                     (u "20240104") (fun _ => None) [d1; d2] None None
              with Ok ops => ops | Raise _ => [] end in
  generate_poster_sync (fun _ => false) (fun _ => None) (u "2024-01-04") (u "20240104")
    (fun _ => None) [d1; d2] None None = Ok ops /\
  http_gets ops = [u "https://img.example.net/a.png"].
Proof.
  intros d1 d2 ops.
  assert (H : generate_poster_sync (fun _ => false) (fun _ => None) (u "2024-01-04") (u "20240104")
                (fun _ => None) [d1; d2] None None = Ok ops) by reflexivity.
  split; [exact H|].
  rewrite (poster_downloads_per_card _ _ _ _ _ _ _ _ _ H); vm_compute; reflexivity.
Defined.

(** * Price extraction *)

Lemma span_spec p s : forall a b, span p s = (a, b) ->
  s = a ++ b /\ Forall (fun c => p c = true) a /\ (forall c b', b = c :: b' -> p c = false).
Proof.
  induction s as [|c r IH]; intros a b H; simpl in H.
  - injection H as <- <-; split; [reflexivity|]; split; [constructor|discriminate].
  - destruct (p c) eqn:Ec.
    + destruct (span p r) as [a' b'] eqn:E; injection H as <- <-.
      destruct (IH a' b' eq_refl) as (-> & Ha & Hb).
      split; [reflexivity|]; split; [constructor; assumption|exact Hb].
    + injection H as <- <-; split; [reflexivity|]; split; [constructor|].
      intros c' b' Hc; injection Hc as <- _; exact Ec.
Qed.

Lemma span_all p a b : Forall (fun c => p c = true) a ->
  (forall c b', b = c :: b' -> p c = false) -> span p (a ++ b) = (a, b).
Proof.
  intros Ha Hb; induction Ha as [|c a Hc Ha IH]; simpl.
  - destruct b as [|c b']; [reflexivity|]; simpl; rewrite (Hb c b' eq_refl); reflexivity.
  - rewrite Hc, IH; reflexivity.
Qed.

Lemma digit_in_range zs c v : digit_in zs c = Some v -> exists z, In z zs /\ z <= c <= z + 9.
Proof.
  induction zs as [|z zs IH]; simpl; [discriminate|].
  destruct ((z <=? c) && (c <=? z + 9)) eqn:E.
  - intros _; apply andb_true_iff in E as [E1 E2]; apply Z.leb_le in E1, E2.
    exists z; split; [left; reflexivity|lia].
  - intros H; destruct (IH H) as (z' & Hi & Hr); exists z'; split; [right|]; assumption.
Qed.

Lemma digit_not_space c : is_digit c = true -> is_space c = false.
Proof.
  unfold is_digit, digit_value; destruct (digit_in DIGIT_ZEROS c) as [v|] eqn:E; [|discriminate].
  intros _; destruct (digit_in_range _ _ _ E) as (z & Hz & Hr).
  assert (Hall : forallb (fun z => forallb (fun v => negb (is_space (z + v))) [0;1;2;3;4;5;6;7;8;9])
                   DIGIT_ZEROS = true) by (vm_compute; reflexivity).
  rewrite forallb_forall in Hall; specialize (Hall z Hz); rewrite forallb_forall in Hall.
  replace c with (z + (c - z)) by lia.
  apply negb_true_iff, Hall.
  assert (Hv : c - z = 0 \/ c - z = 1 \/ c - z = 2 \/ c - z = 3 \/ c - z = 4 \/ c - z = 5 \/
               c - z = 6 \/ c - z = 7 \/ c - z = 8 \/ c - z = 9) by lia.
  repeat (destruct Hv as [Hv|Hv]; [rewrite Hv; simpl; tauto|]); rewrite Hv; simpl; tauto.
Qed.

Lemma DOT_not_digit : is_digit DOT = false.
Proof. reflexivity. Qed.

Lemma DOT_not_space : is_space DOT = false.
Proof. reflexivity. Qed.

Lemma YUAN_not_digit : is_digit YUAN = false.
Proof. reflexivity. Qed.

Lemma YUAN_not_space : is_space YUAN = false.
Proof. reflexivity. Qed.

Lemma match_number_sound s g rest :
  match_number s = Some (g, rest) -> s = g ++ rest /\ number_shape g /\ number_end g rest.
Proof.
  unfold match_number; destruct (span is_digit s) as [ds r] eqn:E.
  apply span_spec in E as (-> & Hds & Hr).
  destruct ds as [|d ds']; [discriminate|]; set (ds := d :: ds') in *.
  destruct r as [|c r'].
  - intros H; injection H as <- <-; split; [reflexivity|]; split.
    + exists ds, []; split; [discriminate|]; split; [exact Hds|]; split; [constructor|left; reflexivity].
    + intros c y' Hc; discriminate.
  - destruct (c =? DOT) eqn:Ec.
    + apply Z.eqb_eq in Ec; subst c.
      destruct (span is_digit r') as [fs r2] eqn:E2; apply span_spec in E2 as (-> & Hfs & Hr2).
      intros H; injection H as <- <-; split; [unfold ds; simpl; rewrite <- app_assoc; reflexivity|]; split.
      * exists ds, fs; split; [discriminate|]; split; [exact Hds|]; split; [exact Hfs|right; reflexivity].
      * intros c y' Hc; split; [exact (Hr2 c y' Hc)|]; intros _; change (In DOT ((d :: ds') ++ DOT :: fs)); apply in_elt.
    + intros H; injection H as <- <-; split; [reflexivity|]; split.
      * exists ds, []; split; [discriminate|]; split; [exact Hds|]; split; [constructor|left; reflexivity].
      * intros c0 y' Hc; injection Hc as <- <-; split; [exact (Hr c r' eq_refl)|].
        intros ->; rewrite Z.eqb_refl in Ec; discriminate.
Qed.

Lemma not_in_digits l : Forall (fun c => is_digit c = true) l -> ~ In DOT l.
Proof.
  intros H Hi; rewrite Forall_forall in H; specialize (H DOT Hi); rewrite DOT_not_digit in H;
    discriminate.
Qed.

Lemma match_number_exact g y : number_shape g -> number_end g y -> match_number (g ++ y) = Some (g, y).
Proof.
  intros (ds & fs & Hne & Hds & Hfs & [->| ->]) Hend.
  - unfold match_number; rewrite span_all; [|exact Hds|intros c b' Hc; exact (proj1 (Hend c b' Hc))].
    destruct ds as [|d ds']; [congruence|].
    destruct y as [|c y']; [reflexivity|].
    destruct (c =? DOT) eqn:Ec; [|reflexivity].
    apply Z.eqb_eq in Ec; destruct (proj2 (Hend c y' eq_refl) Ec) as [H|H];
      [subst d; inversion Hds; rewrite DOT_not_digit in *; discriminate|].
    inversion Hds; exfalso; eapply not_in_digits; eassumption.
  - unfold match_number; rewrite <- app_assoc; cbn [app].
    rewrite span_all; [|exact Hds|intros c b' Hc; injection Hc as <- _; exact DOT_not_digit].
    destruct ds as [|d ds']; [congruence|].
    unfold DOT at 1; rewrite Z.eqb_refl.
    rewrite span_all; [reflexivity|exact Hfs|intros c b' Hc; exact (proj1 (Hend c b' Hc))].
Qed.

Lemma match_number_digit d z : is_digit d = true -> exists g rest, match_number (d :: z) = Some (g, rest).
Proof.
  intros Hd; unfold match_number; cbn [span]; rewrite Hd.
  destruct (span is_digit z) as [a b]; destruct b as [|c b']; [eauto|].
  destruct (c =? DOT); [destruct (span is_digit b')|]; eauto.
Qed.

Lemma spaces_then span_w w d z : all_space w -> is_space d = false ->
  span_w = span is_space (w ++ d :: z) -> span_w = (w, d :: z).
Proof.
  intros Hw Hd ->; apply span_all; [exact Hw|intros c b' Hc; injection Hc as <- _; exact Hd].
Qed.

Lemma match_yen_at_sound s g : match_yen_at s = Some g ->
  exists c w y, s = c :: w ++ g ++ y /\ In c YEN_SIGNS /\ all_space w /\
    number_shape g /\ number_end g y.
Proof.
  unfold match_yen_at; destruct s as [|c r]; [discriminate|].
  destruct (existsb (Z.eqb c) YEN_SIGNS) eqn:Ey; [|discriminate].
  apply existsb_exists in Ey as (c' & Hc' & Ec); apply Z.eqb_eq in Ec; subst c'.
  destruct (span is_space r) as [w r'] eqn:Ew; apply span_spec in Ew as (-> & Hw & _).
  cbn [snd]; destruct (match_number r') as [[g' rest]|] eqn:Em; [|discriminate].
  intros H; injection H as <-; apply match_number_sound in Em as (-> & Hs & He).
  exists c, w, rest; split; [reflexivity|]; split; [exact Hc'|]; split; [exact Hw|split; assumption].
Qed.

Lemma match_yen_at_complete c w d z : In c YEN_SIGNS -> all_space w -> is_digit d = true ->
  exists g, match_yen_at (c :: w ++ d :: z) = Some g.
Proof.
  intros Hc Hw Hd; unfold match_yen_at.
  assert (Ey : existsb (Z.eqb c) YEN_SIGNS = true)
    by (apply existsb_exists; exists c; split; [exact Hc|apply Z.eqb_refl]).
  rewrite Ey, (spaces_then _ w d z Hw (digit_not_space d Hd) eq_refl); cbn [snd].
  destruct (match_number_digit d z Hd) as (g & rest & ->); exists g; reflexivity.
Qed.

Lemma match_yuan_at_sound s g : match_yuan_at s = Some g ->
  exists w y, s = g ++ w ++ YUAN :: y /\ all_space w /\ number_shape g.
Proof.
  unfold match_yuan_at; destruct (match_number s) as [[g' rest]|] eqn:Em; [|discriminate].
  apply match_number_sound in Em as (-> & Hs & _).
  destruct (span is_space rest) as [w r] eqn:Ew; apply span_spec in Ew as (-> & Hw & _).
  cbn [snd]; destruct r as [|c y]; [discriminate|].
  destruct (c =? YUAN) eqn:Ec; [|discriminate]; apply Z.eqb_eq in Ec; subst c.
  intros H; injection H as <-; exists w, y; split; [reflexivity|split; assumption].
Qed.

Lemma match_yuan_at_complete g w y : number_shape g -> all_space w ->
  match_yuan_at (g ++ w ++ YUAN :: y) = Some g.
Proof.
  intros Hs Hw; unfold match_yuan_at.
  rewrite match_number_exact; [|exact Hs|].
  - rewrite (spaces_then _ w YUAN y Hw YUAN_not_space eq_refl); cbn [snd].
    unfold YUAN at 1; rewrite Z.eqb_refl; reflexivity.
  - intros c y' Hc; destruct w as [|c0 w'].
    + injection Hc as <- _; split; [exact YUAN_not_digit|discriminate].
    + injection Hc as <- _; inversion Hw as [|? ? Hc0]; subst.
      split; [destruct (is_digit c0) eqn:Ed; [rewrite (digit_not_space c0 Ed) in Hc0|]; easy|].
      intros ->; rewrite DOT_not_space in Hc0; discriminate.
Qed.

Lemma re_search_sound m s g : re_search m s = Some g ->
  exists x s', s = x ++ s' /\ m s' = Some g /\
    (forall x1 x2, x = x1 ++ x2 -> x2 <> [] -> m (x2 ++ s') = None).
Proof.
  induction s as [|a r IH]; simpl.
  - destruct (m []) eqn:E; [|discriminate]; intros H; injection H as ->.
    exists [], []; split; [reflexivity|]; split; [exact E|].
    intros x1 x2 Hx Hne; destruct x1, x2; simpl in Hx; congruence.
  - destruct (m (a :: r)) eqn:E.
    + intros H; injection H as ->; exists [], (a :: r); split; [reflexivity|]; split; [exact E|].
      intros x1 x2 Hx Hne; destruct x1, x2; simpl in Hx; congruence.
    + intros H; destruct (IH H) as (x & s' & -> & Hm & Hb).
      exists (a :: x), s'; split; [reflexivity|]; split; [exact Hm|].
      intros [|a' x1] x2 Hx Hne; simpl in Hx.
      * rewrite <- Hx; exact E.
      * injection Hx as _ Hx; exact (Hb x1 x2 Hx Hne).
Qed.

Lemma re_search_none m s : re_search m s = None -> forall x s', s = x ++ s' -> m s' = None.
Proof.
  induction s as [|a r IH]; simpl; intros H x s' Hs.
  - destruct (m []) eqn:E; [discriminate|]; destruct x, s'; simpl in Hs; congruence.
  - destruct (m (a :: r)) eqn:E; [discriminate|].
    destruct x as [|a' x]; simpl in Hs; [rewrite <- Hs; exact E|].
    injection Hs as _ Hs; exact (IH H x s' Hs).
Qed.

Lemma number_shape_head g : number_shape g -> exists d g', g = d :: g' /\ is_digit d = true.
Proof.
  intros (ds & fs & Hne & Hds & _ & Hg); destruct ds as [|d ds']; [congruence|].
  inversion Hds; subst; exists d; destruct Hg as [->| ->]; eexists; split; [reflexivity| |reflexivity|];
    assumption.
Qed.

Section PriceFacts.

Variable py_float : pystr -> option Q.

Lemma extract_price_sound_core text p : extract_price_from_text py_float text = Some p ->
  exists g, py_float g = Some p /\ number_shape g /\ (after_yen text g \/ before_yuan text g).
Proof.
  unfold extract_price_from_text; destruct text as [|t0 text']; [discriminate|].
  set (text := t0 :: text').
  destruct (re_search match_yen_at text) as [g|] eqn:Ey.
  - destruct (py_float g) as [q|] eqn:Eq.
    + intros H; injection H as <-; exists g; split; [exact Eq|].
      destruct (re_search_sound _ _ _ Ey) as (x & s' & Hs & Hm & _).
      destruct (match_yen_at_sound _ _ Hm) as (c & w & y & -> & Hc & Hw & Hg & _).
      split; [exact Hg|left; exists x, c, w, y; split; [exact Hs|split; assumption]].
    + destruct (re_search match_yuan_at text) as [g'|] eqn:Eu; [|discriminate].
      intros H; exists g'; split; [exact H|].
      destruct (re_search_sound _ _ _ Eu) as (x & s' & Hs & Hm & _).
      destruct (match_yuan_at_sound _ _ Hm) as (w & y & -> & Hw & Hg).
      split; [exact Hg|right; exists x, w, y; split; [exact Hs|exact Hw]].
  - destruct (re_search match_yuan_at text) as [g'|] eqn:Eu; [|discriminate].
    intros H; exists g'; split; [exact H|].
    destruct (re_search_sound _ _ _ Eu) as (x & s' & Hs & Hm & _).
    destruct (match_yuan_at_sound _ _ Hm) as (w & y & -> & Hw & Hg).
    split; [exact Hg|right; exists x, w, y; split; [exact Hs|exact Hw]].
Qed.

Lemma extract_price_yen_core text : has_yen_number text ->
  exists x c w g y, text = x ++ c :: w ++ g ++ y /\ In c YEN_SIGNS /\ all_space w /\
    number_shape g /\ number_end g y /\ ~ has_yen_number x /\
    extract_price_from_text py_float text =
      match py_float g with
      | Some p => Some p
      | None => match re_search match_yuan_at text with Some g' => py_float g' | None => None end
      end.
Proof.
  intros (x0 & c0 & w0 & d0 & y0 & Ht & Hc0 & Hw0 & Hd0).
  destruct (re_search match_yen_at text) as [g|] eqn:Ey.
  - destruct (re_search_sound _ _ _ Ey) as (x & s' & Hs & Hm & Hb).
    destruct (match_yen_at_sound _ _ Hm) as (c & w & y & -> & Hc & Hw & Hg & He).
    exists x, c, w, g, y; split; [exact Hs|]; split; [exact Hc|]; split; [exact Hw|].
    split; [exact Hg|]; split; [exact He|]; split.
    + intros (a & c' & w' & d' & b & Hx & Hc' & Hw' & Hd').
      destruct (match_yen_at_complete c' w' d' (b ++ c :: w ++ g ++ y) Hc' Hw' Hd') as [g2 Hg2].
      replace (c' :: w' ++ d' :: b ++ c :: w ++ g ++ y) with
        ((c' :: w' ++ d' :: b) ++ c :: w ++ g ++ y) in Hg2 by (simpl; rewrite <- app_assoc; reflexivity).
      rewrite (Hb a (c' :: w' ++ d' :: b)) in Hg2; [discriminate| |discriminate].
      exact Hx.
    + unfold extract_price_from_text; destruct text as [|t0 text']; [destruct x; discriminate|].
      rewrite Ey; reflexivity.
  - exfalso; destruct (match_yen_at_complete c0 w0 d0 y0 Hc0 Hw0 Hd0) as [g Hg].
    rewrite (re_search_none _ _ Ey x0 _ Ht) in Hg; discriminate.
Qed.

End PriceFacts.

(** A price found in a text is [float] of a run of digits with at most one
    dot, standing right after a "¥" or "￥" sign and optional spaces, or
    right before optional spaces and "元". *)
Theorem extract_price_sound py_float text p :
  extract_price_from_text py_float text = Some p ->
  exists g, py_float g = Some p /\ number_shape g /\ (after_yen text g \/ before_yuan text g).
Proof. exact (extract_price_sound_core py_float text p). Qed.

Lemma extract_price_sound_witness :
  let py_float := fun g : pystr => Some (Z.of_nat (length g) # 1) in
  extract_price_from_text py_float (u "原价40元，现价￥ 32.9") = Some (4 # 1) /\
  exists g, py_float g = Some (4 # 1) /\ number_shape g /\
    (after_yen (u "原价40元，现价￥ 32.9") g \/ before_yuan (u "原价40元，现价￥ 32.9") g).
Proof.
  intros py_float.
  assert (H : extract_price_from_text py_float (u "原价40元，现价￥ 32.9") = Some (4 # 1))
    by (vm_compute; reflexivity).
  split; [exact H|exact (extract_price_sound py_float _ _ H)].
Defined.

(** When [float] accepts every number of the shape [\d+\.?\d*] (as Python's
    does), a text with a "¥" or "￥" sign followed by optional spaces and a
    digit is priced by the number after the first such sign, taken as long
    as it goes, even when a "…元" number comes earlier in the text. *)
Theorem extract_price_yen_first py_float text :
  (forall g, number_shape g -> py_float g <> None) ->
  has_yen_number text ->
  exists x c w g y, text = x ++ c :: w ++ g ++ y /\ In c YEN_SIGNS /\ all_space w /\
    number_shape g /\ number_end g y /\ ~ has_yen_number x /\
    extract_price_from_text py_float text = py_float g.
Proof.
  intros Htot Hy.
  destruct (extract_price_yen_core py_float text Hy) as (x & c & w & g & y & Ht & Hc & Hw & Hg & He & Hx & Hp).
  exists x, c, w, g, y; do 6 (split; [assumption|]).
  rewrite Hp; destruct (py_float g) eqn:Eg; [reflexivity|exfalso; exact (Htot g Hg Eg)].
Qed.

Lemma extract_price_yen_first_witness :
  let py_float := fun g : pystr => Some (Z.of_nat (length g) # 1) in
  let text := u "买一送一 40元 ¥32.9" in
  (forall g, number_shape g -> py_float g <> None) /\ has_yen_number text /\
  (exists x c w g y, text = x ++ c :: w ++ g ++ y /\ In c YEN_SIGNS /\ all_space w /\
    number_shape g /\ number_end g y /\ ~ has_yen_number x /\
    extract_price_from_text py_float text = py_float g) /\
  extract_price_from_text py_float text = Some (4 # 1).
Proof.
  intros py_float text.
  assert (Htot : forall g, number_shape g -> py_float g <> None) by (intros; discriminate).
  assert (Hy : has_yen_number text).
  { exists (u "买一送一 40元 "), 165, [], 51, (u "2.9"); split; [reflexivity|].
    split; [left; reflexivity|]; split; [constructor|reflexivity]. }
  split; [exact Htot|]; split; [exact Hy|]; split; [exact (extract_price_yen_first py_float _ Htot Hy)|].
  vm_compute; reflexivity.
Defined.

(** When [float] accepts every number of the shape [\d+\.?\d*], a text gets
    no price exactly when it has neither a "¥"/"￥" sign followed by
    optional spaces and a digit, nor such a number followed by optional
    spaces and "元". *)
Theorem extract_price_none_iff py_float text :
  (forall g, number_shape g -> py_float g <> None) ->
  extract_price_from_text py_float text = None <->
  ~ has_yen_number text /\ ~ has_yuan_number text.
Proof.
  intros Htot; split.
  - intros Hn; split.
    + intros Hy.
      destruct (extract_price_yen_core py_float text Hy) as (x & c & w & g & y & _ & _ & _ & Hg & _ & _ & Hp).
      rewrite Hp in Hn; destruct (py_float g) eqn:Eg; [discriminate|exact (Htot g Hg Eg)].
    + intros (g & Hg & x & w & y & Ht & Hw).
      revert Hn; unfold extract_price_from_text.
      assert (Hne : exists t0 t', text = t0 :: t').
      { destruct (number_shape_head g Hg) as (d & g' & -> & _); rewrite Ht.
        destruct x as [|a x]; eexists; eexists; reflexivity. }
      destruct Hne as (t0 & t' & Ht'); rewrite Ht'; cbv iota; rewrite <- Ht'.
      destruct (match _ with Some g0 => py_float g0 | None => None end); [discriminate|].
      destruct (re_search match_yuan_at text) as [g2|] eqn:Eu.
      * destruct (re_search_sound _ _ _ Eu) as (x2 & s2 & _ & Hm & _).
        destruct (match_yuan_at_sound _ _ Hm) as (w2 & y2 & _ & _ & Hg2).
        exact (Htot g2 Hg2).
      * pose proof (re_search_none _ _ Eu x _ Ht) as Hm.
        rewrite match_yuan_at_complete in Hm by assumption; discriminate.
  - intros [Hy Hu]; destruct (extract_price_from_text py_float text) as [p|] eqn:E; [|reflexivity].
    exfalso; destruct (extract_price_sound_core py_float text p E) as (g & _ & Hg & [Ha|Hb]).
    + apply Hy; destruct Ha as (x & c & w & y & -> & Hc & Hw).
      destruct (number_shape_head g Hg) as (d & g' & -> & Hd).
      exists x, c, w, d, (g' ++ y); split; [reflexivity|split; [exact Hc|split; assumption]].
    + apply Hu; exists g; split; assumption.
Qed.

Lemma extract_price_none_iff_witness :
  let py_float := fun g : pystr => Some (Z.of_nat (length g) # 1) in
  (forall g, number_shape g -> py_float g <> None) /\
  (extract_price_from_text py_float (u "第二份半价") = None <->
   ~ has_yen_number (u "第二份半价") /\ ~ has_yuan_number (u "第二份半价")) /\
  extract_price_from_text py_float (u "第二份半价") = None.
Proof.
  intros py_float.
  assert (Htot : forall g, number_shape g -> py_float g <> None) by (intros; discriminate).
  split; [exact Htot|]; split; [exact (extract_price_none_iff py_float _ Htot)|].
  vm_compute; reflexivity.
Defined.

(** * The API source *)

Lemma api_item_deal_shape today py_repr json_float target_brands item d :
  target_brands <> [] ->
  api_item_deal today py_repr json_float target_brands item = Ok (Some d) ->
  exists b t p, d_brand d = Some b /\ In b target_brands /\ d_title d = Some t /\
    (length t <= 80)%nat /\ d_date d = Some today /\ d_price d = Some p.
Proof.
  intros Htb; unfold api_item_deal; destruct item as [| | | | | |f]; try discriminate.
  cbv zeta.
  match goal with |- bind ?m _ = _ -> _ => destruct m as [brand|e] eqn:Eb end;
    cbn [bind]; [|discriminate].
  destruct (nonempty_list target_brands && negb (pystr_mem brand target_brands)) eqn:Ef;
    [discriminate|].
  match goal with |- context [slice_to 80 ?x] =>
    assert (Hlen : (length (slice_to 80 x) <= 80)%nat)
      by (unfold slice_to; rewrite length_firstn; lia) end.
  do 2 (match goal with |- bind ?m _ = _ -> _ => destruct m; cbn [bind]; [|discriminate] end).
  intros H; injection H as <-.
  match goal with |- exists b t p, d_brand (mkDeal _ (Some ?B) (Some ?T) _ (Some ?P) _ _ _ _ _) = _ /\ _ =>
    exists B, T, P end.
  split; [reflexivity|]; split; [|split; [reflexivity|]; split; [exact Hlen|split; reflexivity]].
  destruct brand as [|c brand'].
  - destruct target_brands as [|b0 tb]; [congruence|left; reflexivity].
  - destruct target_brands as [|b0 tb]; [congruence|].
    cbn [nonempty_list andb] in Ef; apply negb_false_iff, pystr_mem_In in Ef; exact Ef.
Qed.

Lemma api_items_shape today py_repr json_float target_brands items : forall ds,
  target_brands <> [] ->
  api_items today py_repr json_float target_brands items = Ok ds ->
  forall d, In d ds -> exists b t p, d_brand d = Some b /\ In b target_brands /\
    d_title d = Some t /\ (length t <= 80)%nat /\ d_date d = Some today /\ d_price d = Some p.
Proof.
  induction items as [|it items IH]; intros ds Htb H d Hd; simpl in H.
  - injection H as <-; destruct Hd.
  - destruct (api_item_deal _ _ _ _ it) as [od|e] eqn:E; cbn [bind] in H; [|discriminate].
    destruct (api_items _ _ _ _ items) as [ds'|e]; cbn [bind] in H; [|discriminate].
    injection H as <-; destruct od as [d'|]; [destruct Hd as [<-|Hd]|].
    + exact (api_item_deal_shape _ _ _ _ _ _ Htb E).
    + exact (IH ds' Htb eq_refl d Hd).
    + exact (IH ds' Htb eq_refl d Hd).
Qed.

Lemma brands_or_default_nonempty tb : brands_or_default tb <> [].
Proof. destruct tb; discriminate. Qed.

(** With the source "api" and an [http] URL, every record fetch_today_deals
    returns has one of the configured brands (one of the three default
    brands when none is configured), a title of at most 80 characters,
    today's date and a price; an API record with another brand is dropped. *)
Theorem fetch_today_deals_api_records today extract_price rss_feed py_repr json_float api_request
    target_brands data_source rss_urls api_url api_method ds :
  lower_ascii (strip (str_or data_source (u "mock"))) = u "api" ->
  nonempty api_url && is_prefix (u "http") (strip api_url) = true ->
  fetch_today_deals today extract_price rss_feed (api_deals_json today py_repr json_float api_request)
    target_brands data_source rss_urls api_url api_method = Ok ds ->
  forall d, In d ds -> exists b t p, d_brand d = Some b /\ In b (brands_or_default target_brands) /\
    d_title d = Some t /\ (length t <= 80)%nat /\ d_date d = Some today /\ d_price d = Some p.
Proof.
  intros Hs Hu H d Hd.
  unfold fetch_today_deals in H; rewrite Hs in H.
  assert (E1 : pystr_eqb (u "api") (u "rss") = false) by reflexivity.
  assert (E2 : pystr_eqb (u "api") (u "api") = true) by reflexivity.
  rewrite E1, E2, Hu in H.
  unfold fetch_from_api in H.
  destruct (nonempty (strip api_url) && is_prefix (u "http") (strip (strip api_url)));
    [|injection H as <-; destruct Hd].
  unfold api_deals_json in H.
  destruct (api_request _ _) as [raw|]; [|injection H as <-; destruct Hd].
  unfold api_map in H; destruct (api_raw_items raw) as [items|e]; cbn [bind] in H; [|discriminate].
  exact (api_items_shape _ _ _ _ _ ds (brands_or_default_nonempty _) H d Hd).
Qed.

Lemma fetch_today_deals_api_records_witness :
  let rec := JObj [(u "brand", JStr (u " 麦当劳 ")); (u "title", JStr (u "麦辣鸡腿堡套餐"));
                   (u "price", JFloat (199 # 10))] in
  let other := JObj [(u "brand", JStr (u "汉堡王")); (u "title", JStr (u "皇堡"))] in
  let req := fun (_ : pystr) (_ : bool) => Some (JObj [(u "data", JArr [rec; other; JInt 3])]) in
  let jf := fun v : Json => match v with
                            | JFloat q => Ok q
                            | _ => Raise (mkExc (u "TypeError") [])
                            end in
  let r := fetch_today_deals (u "2024-01-04") (fun _ => None) (fun _ => None)
             (api_deals_json (u "2024-01-04") (fun _ => []) jf req) []
             (u "api") None (u "https://api.example.net/deals") (u "get") in
  lower_ascii (strip (str_or (u "api") (u "mock"))) = u "api" /\
  nonempty (u "https://api.example.net/deals") &&
    is_prefix (u "http") (strip (u "https://api.example.net/deals")) = true /\
  match r with
  | Ok [d] => exists b t p, d_brand d = Some b /\ In b (brands_or_default []) /\
      d_title d = Some t /\ (length t <= 80)%nat /\ d_date d = Some (u "2024-01-04") /\
      d_price d = Some p
  | _ => False
  end.
Proof.
  intros rec other req jf r.
  assert (H1 : lower_ascii (strip (str_or (u "api") (u "mock"))) = u "api") by reflexivity.
  assert (H2 : nonempty (u "https://api.example.net/deals") &&
    is_prefix (u "http") (strip (u "https://api.example.net/deals")) = true) by reflexivity.
  split; [exact H1|]; split; [exact H2|].
  assert (Hr : exists d, r = Ok [d]) by (eexists; vm_compute; reflexivity).
  destruct Hr as [d Hr]; rewrite Hr; unfold r in Hr.
  exact (fetch_today_deals_api_records _ _ _ _ _ _ _ _ _ _ _ [d] H1 H2 Hr d (or_introl eq_refl)).
Defined.

Lemma strip_idem s : strip (strip s) = strip s.
Proof.
  destruct (lstrip_decomp s) as [w1 [H1 E1]].
  destruct (rstrip_decomp (lstrip s)) as [w2 [H2 E2]].
  assert (Hs : s = w1 ++ strip s ++ w2).
  { unfold strip; rewrite E1 at 1; f_equal; exact E2. }
  rewrite <- (strip_pad w1 (strip s) w2 H1 H2), <- Hs; reflexivity.
Qed.

Lemma fetch_today_deals_api_call today extract_price rss_feed api_deals
    target_brands data_source rss_urls api_url api_method :
  lower_ascii (strip (str_or data_source (u "mock"))) = u "api" ->
  nonempty api_url && is_prefix (u "http") (strip api_url) = true ->
  fetch_today_deals today extract_price rss_feed api_deals target_brands data_source rss_urls
    api_url api_method =
  api_deals (strip api_url)
    (pystr_eqb (lower_ascii (str_or (str_or api_method (u "get")) (u "get"))) (u "post"))
    (brands_or_default target_brands).
Proof.
  intros Hs Hu; unfold fetch_today_deals; rewrite Hs.
  assert (E1 : pystr_eqb (u "api") (u "rss") = false) by reflexivity.
  assert (E2 : pystr_eqb (u "api") (u "api") = true) by reflexivity.
  rewrite E1, E2, Hu; unfold fetch_from_api; rewrite strip_idem.
  apply andb_true_iff in Hu as [_ Hp].
  destruct (strip api_url) as [|c r]; [discriminate|]; cbn [nonempty andb]; rewrite Hp; reflexivity.
Qed.

Lemma caught_price_ok (json_float : Json -> Result Q) (v : Json) :
  (forall v e, json_float v = Raise e -> catches_type_value e = true) ->
  exists q, match v with
            | JNull => Ok 0%Q
            | p => match json_float p with
                   | Ok q => Ok q
                   | Raise e => if catches_type_value e then Ok 0%Q else Raise e
                   end
            end = Ok q.
Proof.
  intros Hf; destruct v; try (exists 0%Q; reflexivity);
    match goal with |- context [json_float ?x] => destruct (json_float x) as [r|e] eqn:E end;
    eauto; rewrite (Hf _ _ E); eauto.
Qed.

Lemma caught_origin_ok (json_float : Json -> Result Q) (v : Json) :
  (forall v e, json_float v = Raise e -> catches_type_value e = true) ->
  exists o, match v with
            | JNull => Ok None
            | o => match json_float o with
                   | Ok q => Ok (Some q)
                   | Raise e => if catches_type_value e then Ok None else Raise e
                   end
            end = Ok o.
Proof.
  intros Hf; destruct v; try (exists None; reflexivity);
    match goal with |- context [json_float ?x] => destruct (json_float x) as [r|e] eqn:E end;
    eauto; rewrite (Hf _ _ E); eauto.
Qed.

Lemma api_item_deal_raises today py_repr json_float target_brands item e :
  (forall v e, json_float v = Raise e -> catches_type_value e = true) ->
  api_item_deal today py_repr json_float target_brands item = Raise e ->
  exc_class e = u "AttributeError".
Proof.
  intros Hf; unfold api_item_deal; destruct item as [| | | | | |f]; try discriminate; cbv zeta.
  match goal with |- bind ?m _ = _ -> _ => destruct m as [brand|e'] eqn:Eb end; cbn [bind].
  - destruct (_ && _); [discriminate|].
    match goal with |- context [bind (match ?v with JNull => Ok 0%Q | _ => _ end) _] =>
      destruct (caught_price_ok json_float v Hf) as [q Hq]; rewrite Hq; cbn [bind] end.
    match goal with |- context [bind (match ?v with JNull => Ok None | _ => _ end) _] =>
      destruct (caught_origin_ok json_float v Hf) as [o Ho]; rewrite Ho; cbn [bind] end.
    discriminate.
  - intros H; injection H as <-; revert Eb.
    destruct (json_or _ _); try (intros H; injection H as <-; reflexivity); discriminate.
Qed.

Lemma api_items_bad_brand today py_repr json_float target_brands items f :
  (forall v e, json_float v = Raise e -> catches_type_value e = true) ->
  In (JObj f) items ->
  match json_or (get_none f (u "brand")) [get_none f (u "品牌"); JStr []] with
  | JStr _ => False | _ => True end ->
  exists e, api_items today py_repr json_float target_brands items = Raise e /\
    exc_class e = u "AttributeError".
Proof.
  intros Hf Hin Hb; induction items as [|it items IH]; [destruct Hin|]; simpl.
  destruct Hin as [->|Hin].
  - unfold api_item_deal at 1; cbv zeta.
    destruct (json_or (get_none f (u "brand")) [get_none f (u "品牌"); JStr []]);
      try contradiction; cbn [bind]; eexists; split; reflexivity.
  - destruct (api_item_deal _ _ _ _ it) as [od|e] eqn:E; cbn [bind].
    + destruct (IH Hin) as (e & He & Hc); rewrite He; cbn [bind]; eauto.
    + exists e; split; [reflexivity|eapply api_item_deal_raises; [exact Hf|exact E]].
Qed.

(** With the source "api" and an [http] URL, and [float] raising nothing
    but [TypeError] or [ValueError] (no [int] beyond the float range in the
    answer), one JSON record whose first true value among "brand" and
    "品牌" is not a string (a number, say) makes the whole fetch raise
    AttributeError ([.strip()] on it), which
    nothing in fetch_today_deals catches, instead of skipping that record. *)
Theorem fetch_today_deals_api_brand_not_str today extract_price rss_feed py_repr json_float
    api_request target_brands data_source rss_urls api_url api_method raw items f :
  lower_ascii (strip (str_or data_source (u "mock"))) = u "api" ->
  nonempty api_url && is_prefix (u "http") (strip api_url) = true ->
  (forall is_post, api_request (strip api_url) is_post = Some raw) ->
  (forall v e, json_float v = Raise e -> catches_type_value e = true) ->
  api_raw_items raw = Ok items -> In (JObj f) items ->
  match json_or (get_none f (u "brand")) [get_none f (u "品牌"); JStr []] with
  | JStr _ => False | _ => True end ->
  exists e, fetch_today_deals today extract_price rss_feed
              (api_deals_json today py_repr json_float api_request) target_brands data_source
              rss_urls api_url api_method = Raise e /\ exc_class e = u "AttributeError".
Proof.
  intros Hs Hu Hr Hf Hi Hin Hb.
  rewrite fetch_today_deals_api_call by assumption.
  unfold api_deals_json, api_map; rewrite Hr, Hi; cbn [bind].
  exact (api_items_bad_brand _ _ _ _ _ _ Hf Hin Hb).
Qed.

Lemma fetch_today_deals_api_brand_not_str_witness :
  let f := [(u "brand", JInt 1); (u "title", JStr (u "板烧鸡腿堡"))] in
  let raw := JArr [JObj [(u "brand", JStr (u "麦当劳")); (u "price", JStr (u "n/a"))]; JObj f] in
  let req := fun (_ : pystr) (_ : bool) => Some raw in
  let jf := fun v : Json => match v with
                            | JFloat q => Ok q
                            | JStr _ => Raise (mkExc (u "ValueError") [])
                            | _ => Raise (mkExc (u "TypeError") [])
                            end in
  lower_ascii (strip (str_or (u "api") (u "mock"))) = u "api" /\
  nonempty (u "https://api.example.net/deals") &&
    is_prefix (u "http") (strip (u "https://api.example.net/deals")) = true /\
  (forall is_post, req (strip (u "https://api.example.net/deals")) is_post = Some raw) /\
  (forall v e, jf v = Raise e -> catches_type_value e = true) /\
  api_raw_items raw = Ok [JObj [(u "brand", JStr (u "麦当劳")); (u "price", JStr (u "n/a"))]; JObj f] /\
  In (JObj f) [JObj [(u "brand", JStr (u "麦当劳")); (u "price", JStr (u "n/a"))]; JObj f] /\
  exists e, fetch_today_deals (u "2024-01-04") (fun _ => None) (fun _ => None)
              (api_deals_json (u "2024-01-04") (fun _ => []) jf req) [u "麦当劳"]
              (u "api") None (u "https://api.example.net/deals") (u "get") = Raise e /\
            exc_class e = u "AttributeError".
Proof.
  intros f raw req jf.
  assert (H1 : lower_ascii (strip (str_or (u "api") (u "mock"))) = u "api") by reflexivity.
  assert (H2 : nonempty (u "https://api.example.net/deals") &&
    is_prefix (u "http") (strip (u "https://api.example.net/deals")) = true) by reflexivity.
  assert (H3 : forall is_post, req (strip (u "https://api.example.net/deals")) is_post = Some raw)
    by reflexivity.
  assert (Hf : forall v e, jf v = Raise e -> catches_type_value e = true)
    by (intros [] e H; try discriminate; injection H as <-; reflexivity).
  assert (H4 : api_raw_items raw =
    Ok [JObj [(u "brand", JStr (u "麦当劳")); (u "price", JStr (u "n/a"))]; JObj f]) by reflexivity.
  assert (H5 : In (JObj f) [JObj [(u "brand", JStr (u "麦当劳")); (u "price", JStr (u "n/a"))]; JObj f])
    by (right; left; reflexivity).
  split; [exact H1|]; split; [exact H2|]; split; [exact H3|]; split; [exact Hf|].
  split; [exact H4|]; split; [exact H5|].
  apply (fetch_today_deals_api_brand_not_str _ _ _ _ _ _ _ _ _ _ _ _ _ f H1 H2 H3 Hf H4 H5).
  exact I.
Defined.

(** With the source "api" and an [http] URL, a JSON object answer whose
    "data" value (its "deals" value when "data" is absent) is null, a
    boolean or a number makes the fetch raise TypeError ("... object is not
    iterable"), which nothing in fetch_today_deals catches; a string or an
    object there gives no records. *)
Theorem fetch_today_deals_api_data_shape today extract_price rss_feed py_repr json_float
    api_request target_brands data_source rss_urls api_url api_method f v :
  lower_ascii (strip (str_or data_source (u "mock"))) = u "api" ->
  nonempty api_url && is_prefix (u "http") (strip api_url) = true ->
  (forall is_post, api_request (strip api_url) is_post = Some (JObj f)) ->
  (obj_get f (u "data") = Some v \/ (obj_get f (u "data") = None /\ obj_get f (u "deals") = Some v)) ->
  fetch_today_deals today extract_price rss_feed
    (api_deals_json today py_repr json_float api_request) target_brands data_source
    rss_urls api_url api_method =
  match v with
  | JNull | JBool _ | JInt _ | JFloat _ => Raise (TYPE_ERROR_NOT_ITERABLE v)
  | JStr _ | JObj _ => Ok []
  | JArr items => api_items today py_repr json_float (brands_or_default target_brands) items
  end.
Proof.
  intros Hs Hu Hr Hv.
  rewrite fetch_today_deals_api_call by assumption.
  unfold api_deals_json, api_map, api_raw_items; rewrite Hr.
  destruct Hv as [-> | [-> ->]];
    (destruct v as [| | | | s | l | f']; cbn [bind]; try reflexivity;
     [ induction s as [|c s IH]; [reflexivity|]
     | induction f' as [|[k x] f' IH]; [reflexivity|] ];
     cbn [map api_items fst]; unfold api_item_deal at 1; cbn [bind]; rewrite IH; reflexivity).
Qed.

Lemma fetch_today_deals_api_data_shape_witness :
  let req := fun (_ : pystr) (_ : bool) => Some (JObj [(u "code", JInt 0); (u "data", JNull)]) in
  lower_ascii (strip (str_or (u "api") (u "mock"))) = u "api" /\
  nonempty (u "https://api.example.net/deals") &&
    is_prefix (u "http") (strip (u "https://api.example.net/deals")) = true /\
  (forall is_post, req (strip (u "https://api.example.net/deals")) is_post =
     Some (JObj [(u "code", JInt 0); (u "data", JNull)])) /\
  obj_get [(u "code", JInt 0); (u "data", JNull)] (u "data") = Some JNull /\
  fetch_today_deals (u "2024-01-04") (fun _ => None) (fun _ => None)
    (api_deals_json (u "2024-01-04") (fun _ => []) (fun _ => Ok 0%Q) req) []
    (u "api") None (u "https://api.example.net/deals") (u "get") =
  Raise (TYPE_ERROR_NOT_ITERABLE JNull).
Proof.
  intros req.
  assert (H1 : lower_ascii (strip (str_or (u "api") (u "mock"))) = u "api") by reflexivity.
  assert (H2 : nonempty (u "https://api.example.net/deals") &&
    is_prefix (u "http") (strip (u "https://api.example.net/deals")) = true) by reflexivity.
  assert (H3 : forall is_post, req (strip (u "https://api.example.net/deals")) is_post =
     Some (JObj [(u "code", JInt 0); (u "data", JNull)])) by reflexivity.
  assert (H4 : obj_get [(u "code", JInt 0); (u "data", JNull)] (u "data") = Some JNull)
    by reflexivity.
  split; [exact H1|]; split; [exact H2|]; split; [exact H3|]; split; [exact H4|].
  exact (fetch_today_deals_api_data_shape _ _ _ _ _ _ _ _ _ _ _ _ JNull H1 H2 H3 (or_introl H4)).
Defined.

Lemma api_items_raise_after today py_repr json_float target_brands pre it rest e :
  (forall it', In it' pre -> exists od, api_item_deal today py_repr json_float target_brands it' = Ok od) ->
  api_item_deal today py_repr json_float target_brands it = Raise e ->
  api_items today py_repr json_float target_brands (pre ++ it :: rest) = Raise e.
Proof.
  intros Hpre Hit; induction pre as [|it' pre IH]; simpl.
  - rewrite Hit; reflexivity.
  - destruct (Hpre it' (or_introl eq_refl)) as [od Hod]; rewrite Hod; cbn [bind].
    rewrite IH by (intros x Hx; apply Hpre; right; exact Hx); reflexivity.
Qed.

(** With the source "api" and an [http] URL, an item of a configured brand
    whose "price" is set and makes [float] raise something other than
    [TypeError] or [ValueError] ([OverflowError] for an [int] such as
    [10**400]) makes the whole fetch raise that exception, once the items
    before it went through: the [except (TypeError, ValueError)] around the
    conversion does not catch it and nothing in fetch_today_deals does. *)
Theorem fetch_today_deals_api_price_overflow today extract_price rss_feed py_repr json_float
    api_request target_brands data_source rss_urls api_url api_method raw pre f rest s p e :
  lower_ascii (strip (str_or data_source (u "mock"))) = u "api" ->
  nonempty api_url && is_prefix (u "http") (strip api_url) = true ->
  (forall is_post, api_request (strip api_url) is_post = Some raw) ->
  api_raw_items raw = Ok (pre ++ JObj f :: rest) ->
  (forall it, In it pre -> exists od,
     api_item_deal today py_repr json_float (brands_or_default target_brands) it = Ok od) ->
  json_or (get_none f (u "brand")) [get_none f (u "品牌"); JStr []] = JStr s ->
  In (strip s) (brands_or_default target_brands) ->
  get_none f (u "price") = p -> p <> JNull ->
  json_float p = Raise e -> catches_type_value e = false ->
  fetch_today_deals today extract_price rss_feed
    (api_deals_json today py_repr json_float api_request) target_brands data_source
    rss_urls api_url api_method = Raise e.
Proof.
  intros Hs Hu Hr Hi Hpre Hb Hin Hp Hnn Hjf Hc.
  rewrite fetch_today_deals_api_call by assumption.
  unfold api_deals_json, api_map; rewrite Hr, Hi; cbn [bind].
  apply api_items_raise_after; [exact Hpre|].
  unfold api_item_deal; cbv zeta; rewrite Hb; cbn [bind].
  apply pystr_mem_In in Hin; rewrite Hin.
  rewrite andb_false_r.
  rewrite Hp; destruct p; try congruence; rewrite Hjf, Hc; reflexivity.
Qed.

Lemma fetch_today_deals_api_price_overflow_witness :
  let f := [(u "brand", JStr (u "麦当劳")); (u "price", JInt (10 ^ 400))] in
  let raw := JArr [JObj f; JObj [(u "brand", JInt 1)]] in
  let req := fun (_ : pystr) (_ : bool) => Some raw in
  let overflow := mkExc (u "OverflowError") (u "int too large to convert to float") in
  let jf := fun v : Json => match v with
                            | JFloat q => Ok q
                            | JInt z => if 2 ^ 1024 <=? Z.abs z then Raise overflow
                                        else Ok (inject_Z z)
                            | _ => Raise (mkExc (u "TypeError") [])
                            end in
  lower_ascii (strip (str_or (u "api") (u "mock"))) = u "api" /\
  nonempty (u "https://api.example.net/deals") &&
    is_prefix (u "http") (strip (u "https://api.example.net/deals")) = true /\
  (forall is_post, req (strip (u "https://api.example.net/deals")) is_post = Some raw) /\
  api_raw_items raw = Ok ([] ++ JObj f :: [JObj [(u "brand", JInt 1)]]) /\
  json_or (get_none f (u "brand")) [get_none f (u "品牌"); JStr []] = JStr (u "麦当劳") /\
  In (strip (u "麦当劳")) (brands_or_default []) /\
  get_none f (u "price") = JInt (10 ^ 400) /\ JInt (10 ^ 400) <> JNull /\
  jf (JInt (10 ^ 400)) = Raise overflow /\ catches_type_value overflow = false /\
  fetch_today_deals (u "2024-01-04") (fun _ => None) (fun _ => None)
    (api_deals_json (u "2024-01-04") (fun _ => []) jf req) []
    (u "api") None (u "https://api.example.net/deals") (u "get") = Raise overflow.
Proof.
  intros f raw req overflow jf.
  assert (H1 : lower_ascii (strip (str_or (u "api") (u "mock"))) = u "api") by reflexivity.
  assert (H2 : nonempty (u "https://api.example.net/deals") &&
    is_prefix (u "http") (strip (u "https://api.example.net/deals")) = true) by reflexivity.
  assert (H3 : forall is_post, req (strip (u "https://api.example.net/deals")) is_post = Some raw)
    by reflexivity.
  assert (H4 : api_raw_items raw = Ok ([] ++ JObj f :: [JObj [(u "brand", JInt 1)]])) by reflexivity.
  assert (H5 : json_or (get_none f (u "brand")) [get_none f (u "品牌"); JStr []] = JStr (u "麦当劳"))
    by reflexivity.
  assert (H6 : In (strip (u "麦当劳")) (brands_or_default [])) by (vm_compute; right; left; reflexivity).
  assert (H7 : get_none f (u "price") = JInt (10 ^ 400)) by reflexivity.
  assert (H8 : JInt (10 ^ 400) <> JNull) by discriminate.
  assert (H9 : jf (JInt (10 ^ 400)) = Raise overflow) by (vm_compute; reflexivity).
  assert (H10 : catches_type_value overflow = false) by reflexivity.
  do 10 (split; [assumption|]).
  exact (fetch_today_deals_api_price_overflow _ _ _ _ _ _ _ _ _ _ _ raw [] f _ _ _ _
           H1 H2 H3 H4 (fun it Hit => match Hit with end) H5 H6 H7 H8 H9 H10).
Defined.

(** * Brand groups *)

Lemma dedup_fold_In l : forall acc x,
  In x (fold_left (fun acc k => if pystr_mem k acc then acc else acc ++ [k]) l acc) <->
  In x acc \/ In x l.
Proof.
  induction l as [|k l IH]; intros acc x; simpl; [tauto|].
  rewrite IH; destruct (pystr_mem k acc) eqn:E.
  - apply pystr_mem_In in E; split; [tauto|]; intros [H|[<-|H]]; auto.
  - rewrite in_app_iff; simpl; tauto.
Qed.

Lemma dedup_fold_NoDup l : forall acc, NoDup acc ->
  NoDup (fold_left (fun acc k => if pystr_mem k acc then acc else acc ++ [k]) l acc).
Proof.
  induction l as [|k l IH]; intros acc H; simpl; [exact H|].
  apply IH; destruct (pystr_mem k acc) eqn:E; [exact H|].
  apply NoDup_app; [exact H|repeat constructor; intros []|].
  intros x Hx [<-|[]]; apply pystr_mem_In in Hx; congruence.
Qed.

Lemma dedup_keys_In l x : In x (dedup_keys l) <-> In x l.
Proof. unfold dedup_keys; rewrite dedup_fold_In; simpl; tauto. Qed.

Lemma dedup_keys_NoDup l : NoDup (dedup_keys l).
Proof. apply dedup_fold_NoDup; constructor. Qed.

Lemma dedup_keys_snoc l x :
  dedup_keys (l ++ [x]) = dedup_keys l ++ (if pystr_mem x (dedup_keys l) then [] else [x]).
Proof.
  unfold dedup_keys; rewrite fold_left_app; simpl.
  destruct (pystr_mem x _); rewrite ?app_nil_r; reflexivity.
Qed.

Lemma pystr_mem_false x xs : pystr_mem x xs = false <-> ~ In x xs.
Proof.
  rewrite <- pystr_mem_In; destruct (pystr_mem x xs); split; congruence.
Qed.

Lemma setdefault_map k d (g : pystr -> list Deal) L : NoDup L ->
  setdefault_append k d (map (fun k' => (k', g k')) L) =
  map (fun k' => (k', if pystr_eqb k k' then g k' ++ [d] else g k')) L ++
  (if pystr_mem k L then [] else [(k, [d])]).
Proof.
  induction L as [|a L IH]; intros Hnd; [reflexivity|].
  inversion Hnd as [|? ? Ha HL]; subst.
  cbn [map setdefault_append]; change (pystr_mem k (a :: L)) with (pystr_eqb k a || pystr_mem k L).
  destruct (pystr_eqb k a) eqn:E; cbn [orb app].
  - apply pystr_eqb_eq in E; subst a; f_equal; rewrite app_nil_r.
    apply map_ext_in; intros k' Hk'.
    destruct (pystr_eqb k k') eqn:E'; [apply pystr_eqb_eq in E'; subst k'; contradiction|reflexivity].
  - rewrite IH by exact HL; reflexivity.
Qed.

Lemma deals_of_brand_absent pre k :
  ~ In k (map deal_brand_key pre) -> deals_of_brand pre k = [].
Proof.
  induction pre as [|d pre IH]; intros H; [reflexivity|]; unfold deals_of_brand; simpl.
  destruct (pystr_eqb (deal_brand_key d) k) eqn:E.
  - apply pystr_eqb_eq in E; exfalso; apply H; left; exact E.
  - apply IH; intros Hk; apply H; right; exact Hk.
Qed.

Lemma build_brand_map_fold deals : forall pre,
  fold_left (fun m d => setdefault_append (deal_brand_key d) d m) deals
    (map (fun k => (k, deals_of_brand pre k)) (dedup_keys (map deal_brand_key pre))) =
  map (fun k => (k, deals_of_brand (pre ++ deals) k)) (dedup_keys (map deal_brand_key (pre ++ deals))).
Proof.
  induction deals as [|d deals IH]; intros pre; cbn [fold_left]; [rewrite app_nil_r; reflexivity|].
  replace (pre ++ d :: deals) with ((pre ++ [d]) ++ deals) by (rewrite <- app_assoc; reflexivity).
  rewrite <- IH; f_equal.
  rewrite setdefault_map by apply dedup_keys_NoDup.
  rewrite (map_app deal_brand_key pre [d]); cbn [map]; rewrite dedup_keys_snoc, map_app.
  unfold deals_of_brand at 2 3; f_equal.
  - apply map_ext; intros k; rewrite filter_app; cbn [filter].
    destruct (pystr_eqb (deal_brand_key d) k); rewrite ?app_nil_r; reflexivity.
  - destruct (pystr_mem (deal_brand_key d) _) eqn:E; [reflexivity|].
    cbn [map]; unfold deals_of_brand at 1; rewrite filter_app; cbn [filter].
    rewrite (proj2 (pystr_eqb_eq _ _) eq_refl).
    fold (deals_of_brand pre (deal_brand_key d)).
    rewrite deals_of_brand_absent; [reflexivity|].
    apply pystr_mem_false in E; rewrite dedup_keys_In in E; exact E.
Qed.

Lemma build_brand_map_spec deals :
  build_brand_map deals =
  map (fun k => (k, deals_of_brand deals k)) (dedup_keys (map deal_brand_key deals)).
Proof. exact (build_brand_map_fold deals []). Qed.

Lemma fold_ordered_filter (K tb acc : list pystr) :
  fold_left (fun acc b => if pystr_mem b K then acc ++ [b] else acc) tb acc =
  acc ++ filter (fun b => pystr_mem b K) tb.
Proof.
  revert acc; induction tb as [|b tb IH]; intros acc; simpl; [rewrite app_nil_r; reflexivity|].
  rewrite IH; destruct (pystr_mem b K); [rewrite <- app_assoc|]; reflexivity.
Qed.

Lemma fold_add_missing l : forall acc, NoDup l ->
  fold_left (fun acc b => if pystr_mem b acc then acc else acc ++ [b]) l acc =
  acc ++ filter (fun b => negb (pystr_mem b acc)) l.
Proof.
  induction l as [|b l IH]; intros acc Hnd; simpl; [rewrite app_nil_r; reflexivity|].
  inversion Hnd as [|? ? Hb Hl]; subst.
  destruct (pystr_mem b acc) eqn:E; cbn [negb]; rewrite IH by exact Hl; [reflexivity|].
  rewrite <- app_assoc; cbn [app]; do 2 f_equal.
  apply filter_ext_in; intros x Hx; f_equal.
  unfold pystr_mem; rewrite existsb_app; cbn [existsb].
  destruct (pystr_eqb x b) eqn:Ex; [apply pystr_eqb_eq in Ex; subst; contradiction|].
  rewrite orb_false_r; reflexivity.
Qed.

Lemma order_brands_spec target_brands m : NoDup (map_keys m) ->
  order_brands target_brands m =
  filter (fun b => pystr_mem b (map_keys m)) target_brands ++
  filter (fun b => negb (pystr_mem b target_brands)) (map_keys m).
Proof.
  intros Hnd; unfold order_brands; cbv zeta.
  rewrite fold_ordered_filter, fold_add_missing by exact Hnd; cbn [app]; f_equal.
  apply filter_ext_in; intros b Hb; f_equal.
  apply eq_iff_eq_true; rewrite !pystr_mem_In, filter_In, pystr_mem_In; tauto.
Qed.

Lemma map_get_map (g : pystr -> list Deal) K b :
  In b K -> map_get b (map (fun k => (k, g k)) K) = Some (g b).
Proof.
  induction K as [|k K IH]; intros H; [destruct H|]; cbn [map map_get].
  destruct (pystr_eqb b k) eqn:E; [apply pystr_eqb_eq in E; subst; reflexivity|].
  destruct H as [<-|H]; [rewrite (proj2 (pystr_eqb_eq _ _) eq_refl) in E; discriminate|auto].
Qed.

Lemma visit_groups_map (g : pystr -> list Deal) K brands :
  (forall b, In b brands -> In b K /\ g b <> []) ->
  visit_groups (map (fun k => (k, g k)) K) brands = map (fun b => (b, g b)) brands.
Proof.
  induction brands as [|b bs IH]; intros H; [reflexivity|]; cbn [visit_groups map].
  destruct (H b (or_introl eq_refl)) as [HK Hg].
  rewrite map_get_map by exact HK.
  destruct (g b) as [|x l] eqn:E; [congruence|].
  rewrite IH by (intros; apply H; right; assumption); reflexivity.
Qed.

(** The brand groups of a report or a command: first the configured
    brands that occur among the deals' brand keys, in configured order
    (repeated when configured twice), then every other brand key in order
    of first appearance; each group holds all the deals of its brand key,
    in input order, and no group is empty. *)
Theorem group_deals_closed_form target_brands deals :
  group_deals target_brands deals = brand_groups_spec target_brands deals.
Proof.
  unfold group_deals, brand_groups_spec; cbv zeta; rewrite build_brand_map_spec.
  set (K := dedup_keys (map deal_brand_key deals)).
  assert (HK : map_keys (map (fun k => (k, deals_of_brand deals k)) K) = K)
    by (unfold map_keys; rewrite map_map; apply map_id).
  rewrite order_brands_spec; rewrite HK; [|apply dedup_keys_NoDup].
  apply visit_groups_map; intros b Hb.
  assert (HbK : In b K).
  { apply in_app_or in Hb as [Hb|Hb]; apply filter_In in Hb as [Hb1 Hb2];
      [apply pystr_mem_In; exact Hb2|exact Hb1]. }
  split; [exact HbK|].
  unfold K in HbK; rewrite dedup_keys_In, in_map_iff in HbK.
  destruct HbK as (d & Hd & Hin); intros Hnil.
  assert (Hf : In d (deals_of_brand deals b))
    by (apply filter_In; split; [exact Hin|apply pystr_eqb_eq; exact Hd]).
  rewrite Hnil in Hf; destruct Hf.
Qed.

(** * Posters sent by a report run *)

Section ReportImages.

Variable generate_poster : pystr -> list Deal -> Result pystr.

Lemma poster_loop_posters groups :
  snd (poster_loop generate_poster groups) =
  flat_map (fun '(b, ds) => match generate_poster b ds with Ok p => [p] | Raise _ => [] end) groups.
Proof.
  induction groups as [|[b ds] groups IH]; [reflexivity|].
  simpl; destruct (poster_loop generate_poster groups) as [evs ps]; simpl in IH.
  destruct (generate_poster b ds); simpl; rewrite IH; reflexivity.
Qed.

Lemma poster_loop_no_image groups p :
  ~ In (ImageToAll p) (fst (poster_loop generate_poster groups)).
Proof.
  induction groups as [|[b ds] groups IH]; [intros []|].
  simpl; destruct (poster_loop generate_poster groups) as [evs ps]; simpl in IH.
  destruct (generate_poster b ds); simpl; intros H; repeat destruct H as [H|H];
    try discriminate H; exact (IH H).
Qed.

End ReportImages.

(** In a report run with target groups, deals and at least one poster made,
    the run ends with the intro line and then one image send per poster
    made, in brand-group order; no image is sent before the intro. *)
Theorem run_daily_report_images generate_poster target_groups target_brands deals :
  target_groups <> [] -> deals <> [] ->
  let P := flat_map (fun '(b, ds) => match generate_poster b ds with Ok p => [p] | Raise _ => [] end)
             (group_deals target_brands deals) in
  P <> [] ->
  exists evs, run_daily_report generate_poster target_groups target_brands (Ok deals) =
    evs ++ TextToAll INTRO_MSG :: map ImageToAll P /\
    forall p, ~ In (ImageToAll p) evs.
Proof.
  intros Htg Hd P HP.
  pose proof (poster_loop_posters generate_poster (group_deals target_brands deals)) as Hps.
  pose proof (poster_loop_no_image generate_poster (group_deals target_brands deals)) as Hni.
  fold P in Hps.
  unfold run_daily_report.
  destruct target_groups as [|g tg]; [congruence|].
  destruct deals as [|d ds]; [congruence|].
  set (G := group_deals target_brands (d :: ds)) in *.
  destruct (poster_loop generate_poster G) as [evs ps]; simpl in Hps, Hni; subst ps.
  destruct P as [|p P']; [congruence|].
  exists evs; split; [reflexivity|exact Hni].
Qed.

Lemma run_daily_report_images_witness :
  let gp := fun (b : pystr) (_ : list Deal) =>
    if pystr_eqb b (u "A") then Raise (mkExc (u "OSError") []) else Ok (b ++ u ".png") in
  let deals := [deal_of (u "A") (u "a1"); deal_of (u "B") (u "b1"); deal_of (u "C") (u "c1")] in
  [u "123"] <> [] /\ deals <> [] /\
  flat_map (fun '(b, ds) => match gp b ds with Ok p => [p] | Raise _ => [] end)
    (group_deals [] deals) <> [] /\
  exists evs, run_daily_report gp [u "123"] [] (Ok deals) =
    evs ++ TextToAll INTRO_MSG :: map ImageToAll [u "B.png"; u "C.png"] /\
    forall p, ~ In (ImageToAll p) evs.
Proof.
  intros gp deals.
  assert (H1 : [u "123"] <> []) by discriminate.
  assert (H2 : deals <> []) by discriminate.
  assert (HP : flat_map (fun '(b, ds) => match gp b ds with Ok p => [p] | Raise _ => [] end)
    (group_deals [] deals) = [u "B.png"; u "C.png"]) by (vm_compute; reflexivity).
  assert (H3 : flat_map (fun '(b, ds) => match gp b ds with Ok p => [p] | Raise _ => [] end)
    (group_deals [] deals) <> []) by (rewrite HP; discriminate).
  split; [exact H1|]; split; [exact H2|]; split; [exact H3|].
  rewrite <- HP; exact (run_daily_report_images gp [u "123"] [] deals H1 H2 H3).
Defined.
